(** * The unit conversion engine of the recipe manager

    A model of [unit_converter.py]: the class-level table cache of
    [UnitConverter], its loader, the table switch, the path resolver
    [convert] with its depth-first search, and the two query methods.

    - A Python [dict] loaded from JSON is an association list in insertion
      order (the order the search iterates in); indexing takes the entry
      stored under a key.
    - The [visited] set of the search is a [gset string], threaded through
      the recursive calls the way the shared Python set is.
    - The class attributes and the [lru_cache] slot are an explicit state
      record passed through every class method.
    - Python's arithmetic on numbers is an interface ([PyNumber]); IEEE
      binary64 floats are its instance used on concrete tables. *)

From Stdlib Require Import PrimFloat.
From stdpp Require Import base option list gmap strings pretty.

Set Warnings "-inexact-float,-clear-no-such-hyp".

(** ** Exceptions and outcomes *)

Inductive exn : Type :=
  | FileNotFoundError (msg : string)
  | ValueError (msg : string)
  | KeyError (key : string)
  | ZeroDivisionError.

(** What a call does: return, raise, or (in the model only) run out of the
    fuel that bounds the recursion depth. *)
Inductive outcome (A : Type) : Type :=
  | Ret (a : A)
  | Raise (e : exn)
  | OutOfFuel.
Arguments Ret {A} a.
Arguments Raise {A} e.
Arguments OutOfFuel {A}.

(** What a call does on an interpreter with a recursion limit: return,
    raise an exception of the code, or raise [RecursionError]. *)
Inductive limited (A : Type) : Type :=
  | Returns (a : A)
  | Raises (e : exn)
  | RecursionError.
Arguments Returns {A} a.
Arguments Raises {A} e.
Arguments RecursionError {A}.

(** An outcome of the model as the interpreter shows it: running out of
    the fuel that stands for the allowed depth is [RecursionError]. *)
Definition within_limit {A : Type} (o : outcome A) : limited A :=
  match o with
  | Ret a => Returns a
  | Raise e => Raises e
  | OutOfFuel => RecursionError
  end.

(** ** Python dicts in insertion order *)

Definition dict (V : Type) : Type := list (string * V).

(** [k in d] together with [d[k]] *)
Fixpoint dict_get {V : Type} (k : string) (d : dict V) : option V :=
  match d with
  | [] => None
  | (k', v) :: d' => if decide (k = k') then Some v else dict_get k d'
  end.

(** [d.keys()], the order of [for k in d] *)
Definition dict_keys {V : Type} (d : dict V) : list string := d.*1.

(** The name of the [i]-th unit of a generated table. *)
Definition unit_name (i : nat) : string := "u" +:+ pretty i.

(** ** Numbers *)

Class PyNumber (num : Type) : Type := {
  py_mul : num → num → num;             (* [x * y] *)
  py_truediv : num → num → option num;  (* [x / y], [None] on ZeroDivisionError *)
  py_float : num → num                  (* [float(x)] *)
}.

#[export] Instance float_number : PyNumber float := {
  py_mul x y := (x * y)%float;
  py_truediv x y := if (y =? 0)%float then None else Some (x / y)%float;
  py_float x := x
}.

(** ** The converter *)

Section Converter.
Context {num : Type} `{PyNumber num}.

(** The conversion table: unit name to (target unit name to factor). *)
Definition table : Type := dict (dict num).

(** One leg [(start_unit, end_unit, factor)] of a conversion path. *)
Definition leg : Type := string * string * num.

(** [u in factors and v in factors[u]], giving [factors[u][v]] *)
Definition factor_of (factors : table) (u v : string) : option num :=
  row ← dict_get u factors; dict_get v row.

(** [factors.get(u, {})] *)
Definition neighbours (factors : table) (u : string) : dict num :=
  default [] (dict_get u factors).

(** [if path:] is taken for a non-empty list, not for [None] or [[]]. *)
Definition truthy (path : option (list leg)) : bool :=
  match path with
  | Some (_ :: _) => true
  | _ => false
  end.

(** The [for intermediate_unit in ...] loop of [find_conversion_path];
    [search] is the recursive call, and [visited] is the one set shared by
    all of them. *)
Fixpoint try_intermediates
    (search : string → gset string → outcome (option (list leg) * gset string))
    (factors : table) (current_unit : string)
    (units : list string) (visited : gset string)
    : outcome (option (list leg) * gset string) :=
  match units with
  | [] => Ret (None, visited)
  | intermediate_unit :: rest =>
    if decide (intermediate_unit ∈ visited)
    then try_intermediates search factors current_unit rest visited
    else
      match search intermediate_unit visited with
      | Ret (path, visited') =>
        if truthy path
        then
          match factor_of factors current_unit intermediate_unit with
          | Some f =>
            Ret (Some ((current_unit, intermediate_unit, f) :: default [] path),
                 visited')
          | None => Raise (KeyError intermediate_unit)
          end
        else try_intermediates search factors current_unit rest visited'
      | Raise e => Raise e
      | OutOfFuel => OutOfFuel
      end
  end.

(** [find_conversion_path(current_unit, target_unit, visited)]; the result
    carries the set [visited] as the call leaves it. [fuel] bounds the
    recursion depth. *)
Fixpoint find_conversion_path (factors : table) (fuel : nat)
    (target_unit current_unit : string) (visited : gset string)
    : outcome (option (list leg) * gset string) :=
  match fuel with
  | O => OutOfFuel
  | S fuel' =>
    let visited := {[current_unit]} ∪ visited in
    match factor_of factors current_unit target_unit with
    | Some f => Ret (Some [(current_unit, target_unit, f)], visited)
    | None =>
      try_intermediates (find_conversion_path factors fuel' target_unit)
        factors current_unit
        (dict_keys (neighbours factors current_unit)) visited
    end
  end.

(** Ghost code, not in the source: the units on which
    [find_conversion_path] is entered during one search, in call order. It
    follows the two functions above step by step and takes the shared set
    from their results. *)
Fixpoint try_intermediates_calls
    (search : string → gset string → outcome (option (list leg) * gset string))
    (calls : string → gset string → list string)
    (units : list string) (visited : gset string) : list string :=
  match units with
  | [] => []
  | intermediate_unit :: rest =>
    if decide (intermediate_unit ∈ visited)
    then try_intermediates_calls search calls rest visited
    else
      calls intermediate_unit visited ++
      match search intermediate_unit visited with
      | Ret (path, visited') =>
        if truthy path then []
        else try_intermediates_calls search calls rest visited'
      | _ => []
      end
  end.

Fixpoint expanded_units (factors : table) (fuel : nat)
    (target_unit current_unit : string) (visited : gset string)
    : list string :=
  match fuel with
  | O => []
  | S fuel' =>
    current_unit ::
    match factor_of factors current_unit target_unit with
    | Some _ => []
    | None =>
      try_intermediates_calls
        (find_conversion_path factors fuel' target_unit)
        (expanded_units factors fuel' target_unit)
        (dict_keys (neighbours factors current_unit))
        ({[current_unit]} ∪ visited)
    end
  end.

(** Recursion depth that the search can need on [factors]: every nested
    call is on a unit that is a key of the table and was not visited, or it
    is a leaf. *)
Definition search_fuel (factors : table) : nat := S (length factors).

(** [for start_unit, end_unit, factor in path: result *= factor] *)
Definition apply_path (value : num) (path : list leg) : num :=
  fold_left (λ result l, py_mul result l.2) path value.

Definition no_path_message (from_unit to_unit : string) : string :=
  "No conversion path found from '" +:+ from_unit +:+ "' to '" +:+ to_unit +:+ "'".

(** The body of [convert] once [factors] is in hand (lines 80-119). *)
Definition convert_with (factors : table) (value : num)
    (from_unit to_unit : string) : outcome num :=
  if decide (from_unit = to_unit) then Ret (py_float value)
  else
    match factor_of factors from_unit to_unit with
    | Some f => Ret (py_mul value f)
    | None =>
      match factor_of factors to_unit from_unit with
      | Some f =>
        match py_truediv value f with
        | Some q => Ret q
        | None => Raise ZeroDivisionError
        end
      | None =>
        match find_conversion_path factors (search_fuel factors)
                to_unit from_unit ∅ with
        | Ret (path, _) =>
          if truthy path
          then Ret (apply_path value (default [] path))
          else Raise (ValueError (no_path_message from_unit to_unit))
        | Raise e => Raise e
        | OutOfFuel => OutOfFuel
        end
      end
    end.

(** The body of [convert] on an interpreter that still allows [limit]
    nested calls of [find_conversion_path] when the search starts: a call
    nested deeper raises [RecursionError], which nothing in [convert]
    catches. *)
Definition convert_with_limit (limit : nat) (factors : table) (value : num)
    (from_unit to_unit : string) : limited num :=
  if decide (from_unit = to_unit) then Returns (py_float value)
  else
    match factor_of factors from_unit to_unit with
    | Some f => Returns (py_mul value f)
    | None =>
      match factor_of factors to_unit from_unit with
      | Some f =>
        match py_truediv value f with
        | Some q => Returns q
        | None => Raises ZeroDivisionError
        end
      | None =>
        match find_conversion_path factors limit to_unit from_unit ∅ with
        | Ret (path, _) =>
          if truthy path
          then Returns (apply_path value (default [] path))
          else Raises (ValueError (no_path_message from_unit to_unit))
        | Raise e => Raises e
        | OutOfFuel => RecursionError
        end
      end
    end.

(** A table of [n] units in a ring: each has the one entry that leads to
    the next, with factor [f], and the last leads back to the first. *)
Definition ring (n : nat) (f : num) : table :=
  (λ i, (unit_name i, [(unit_name (S i mod n), f)])) <$> seq 0 n.

(** ** The class state and the table loader *)

(** What [open] and [json.load] find under a path: no file, a file that
    is not JSON, or a file that holds a table. The loader keeps what
    parses as it is; it looks neither at its shape nor at its factors. *)
Inductive source : Type :=
  | Missing                   (* no such file *)
  | NotJson                   (* the file is not valid JSON *)
  | Json (factors : table).   (* the file holds this table *)

Definition filesystem : Type := string → source.

(** The class attributes of [UnitConverter] and the single slot of the
    [lru_cache(maxsize=1)] around the loader, keyed by the call's
    [file_path] argument. *)
Record class_state : Type := ClassState {
  _conversion_factors : option table;
  _default_conversion_file : string;
  lru_slot : option (option string * table)
}.

Definition initial_state (default_file : string) : class_state :=
  {| _conversion_factors := None;
     _default_conversion_file := default_file;
     lru_slot := None |}.

Definition not_found_message (file_path : string) : string :=
  "Conversion file not found: " +:+ file_path.

Definition invalid_json_message (file_path : string) : string :=
  "Invalid JSON in conversion file: " +:+ file_path.

(** The decorated function: the body of [_get_conversion_factors]. *)
Definition load_factors (fs : filesystem) (file_path : option string)
    (st : class_state) : outcome table * class_state :=
  match _conversion_factors st with
  | Some factors => (Ret factors, st)
  | None =>
    let file_path := default (_default_conversion_file st) file_path in
    match fs file_path with
    | Json factors =>
      (Ret factors,
       {| _conversion_factors := Some factors;
          _default_conversion_file := _default_conversion_file st;
          lru_slot := lru_slot st |})
    | Missing => (Raise (FileNotFoundError (not_found_message file_path)), st)
    | NotJson => (Raise (ValueError (invalid_json_message file_path)), st)
    end
  end.

(** [_get_conversion_factors] as callers reach it, through [lru_cache]: a
    call whose argument is the slot's key returns the slot's table without
    running the body; any other call runs the body and, when it returns,
    replaces the slot. *)
Definition _get_conversion_factors (fs : filesystem)
    (file_path : option string) (st : class_state)
    : outcome table * class_state :=
  let miss :=
    match load_factors fs file_path st with
    | (Ret factors, st') =>
      (Ret factors,
       {| _conversion_factors := _conversion_factors st';
          _default_conversion_file := _default_conversion_file st';
          lru_slot := Some (file_path, factors) |})
    | other => other
    end in
  match lru_slot st with
  | Some (key, cached) =>
    if decide (key = file_path) then (Ret cached, st) else miss
  | None => miss
  end.

(** [cache_clear()] followed by [cls._conversion_factors = None] *)
Definition clear_cache (st : class_state) : class_state :=
  {| _conversion_factors := None;
     _default_conversion_file := _default_conversion_file st;
     lru_slot := None |}.

Definition set_conversion_file (fs : filesystem) (file_path : string)
    (st : class_state) : outcome unit * class_state :=
  match _get_conversion_factors fs (Some file_path) (clear_cache st) with
  | (Ret _, st') =>
    (Ret tt,
     {| _conversion_factors := _conversion_factors st';
        _default_conversion_file := file_path;
        lru_slot := lru_slot st' |})
  | (Raise e, st') => (Raise e, st')
  | (OutOfFuel, st') => (OutOfFuel, st')
  end.

Definition convert (fs : filesystem) (value : num)
    (from_unit to_unit : string) (conversion_file : option string)
    (st : class_state) : outcome num * class_state :=
  match _get_conversion_factors fs conversion_file st with
  | (Ret factors, st') => (convert_with factors value from_unit to_unit, st')
  | (Raise e, st') => (Raise e, st')
  | (OutOfFuel, st') => (OutOfFuel, st')
  end.

(** [convert] on an interpreter with a recursion limit. *)
Definition convert_limited (limit : nat) (fs : filesystem) (value : num)
    (from_unit to_unit : string) (conversion_file : option string)
    (st : class_state) : limited num * class_state :=
  match _get_conversion_factors fs conversion_file st with
  | (Ret factors, st') =>
    (convert_with_limit limit factors value from_unit to_unit, st')
  | (Raise e, st') => (Raises e, st')
  | (OutOfFuel, st') => (RecursionError, st')
  end.

Definition get_available_units (fs : filesystem)
    (conversion_file : option string) (st : class_state)
    : outcome (list string) * class_state :=
  match _get_conversion_factors fs conversion_file st with
  | (Ret factors, st') => (Ret (dict_keys factors), st')
  | (Raise e, st') => (Raise e, st')
  | (OutOfFuel, st') => (OutOfFuel, st')
  end.

(** The set [compatible] that [get_compatible_units] builds; the order of
    the list made from it is the set's own. *)
Definition compatible_units (factors : table) (unit : string) : gset string :=
  let compatible : gset string :=
    match dict_get unit factors with
    | Some row => list_to_set (dict_keys row)
    | None => ∅
    end in
  fold_left
    (λ (compatible : gset string) (entry : string * dict num),
       match dict_get unit entry.2 with
       | Some _ => {[entry.1]} ∪ compatible
       | None => compatible
       end)
    factors compatible.

Definition get_compatible_units (fs : filesystem) (unit : string)
    (conversion_file : option string) (st : class_state)
    : outcome (gset string) * class_state :=
  match _get_conversion_factors fs conversion_file st with
  | (Ret factors, st') => (Ret (compatible_units factors unit), st')
  | (Raise e, st') => (Raise e, st')
  | (OutOfFuel, st') => (OutOfFuel, st')
  end.

(** The class methods as calls, to speak of what a sequence of them leaves
    in the class state. Each call sees the filesystem of its own moment. *)
Inductive call : Type :=
  | CallLoad (file_path : option string)
  | CallConvert (value : num) (from_unit to_unit : string)
      (conversion_file : option string)
  | CallAvailable (conversion_file : option string)
  | CallCompatible (unit : string) (conversion_file : option string)
  | CallSwitch (file_path : string).

Definition state_after (fs : filesystem) (c : call) (st : class_state)
    : class_state :=
  match c with
  | CallLoad file_path => (_get_conversion_factors fs file_path st).2
  | CallConvert value from_unit to_unit conversion_file =>
    (convert fs value from_unit to_unit conversion_file st).2
  | CallAvailable conversion_file =>
    (get_available_units fs conversion_file st).2
  | CallCompatible unit conversion_file =>
    (get_compatible_units fs unit conversion_file st).2
  | CallSwitch file_path => (set_conversion_file fs file_path st).2
  end.

Definition is_switch (c : call) : bool :=
  match c with
  | CallSwitch _ => true
  | _ => false
  end.

Definition run (calls : list (filesystem * call)) (st : class_state)
    : class_state :=
  fold_left (λ st fc, state_after fc.1 fc.2 st) calls st.

End Converter.

Arguments call num : clear implicits.
Arguments table num : clear implicits.
Arguments leg num : clear implicits.
Arguments source num : clear implicits.
Arguments filesystem num : clear implicits.
Arguments class_state num : clear implicits.

(** ** The table as a directed graph *)

Section Graph.
Context {num : Type} `{PyNumber num}.

(** The table has an entry for [u] containing [v]. *)
Definition edge (factors : table num) (u v : string) : Prop :=
  is_Some (factor_of factors u v).

(** [v] is reached from [u] along one or more forward edges. *)
Definition forward_path (factors : table num) : string → string → Prop :=
  tc (edge factors).

(** [path] is a chain of table entries leading from [u] to [v], each leg
    carrying the factor stored for it. *)
Inductive chain (factors : table num) :
    string → string → list (leg num) → Prop :=
  | chain_last u v f :
      factor_of factors u v = Some f → chain factors u v [(u, v, f)]
  | chain_cons u w v f path :
      factor_of factors u w = Some f → chain factors w v path →
      chain factors u v ((u, w, f) :: path).

(** What a failed search leaves behind: every unit visited between [V] and
    [V'] has no entry for [target], and all its neighbours are in [V']. *)
Definition explored (factors : table num) (target : string)
    (V V' : gset string) : Prop :=
  ∀ x, x ∈ V' → x ∉ V →
    factor_of factors x target = None ∧ ∀ y, edge factors x y → y ∈ V'.

(** The units the legs of a path start from, in order. *)
Definition leg_starts (path : list (leg num)) : list string :=
  (λ l : leg num, l.1.1) <$> path.

(** The units that are keys of the table. *)
Definition sources (factors : table num) : gset string :=
  list_to_set (dict_keys factors).

(** The two cache levels agree: what the [lru_cache] slot holds is the
    table in [_conversion_factors]. *)
Definition coherent (st : class_state num) : Prop :=
  ∀ key cached, lru_slot st = Some (key, cached) →
    _conversion_factors st = Some cached.

End Graph.

(** ** Pricing: the callers of [convert] in [main.py] *)

(** [d[k] = v]: an existing key keeps its place, a new one goes last. *)
Fixpoint dict_set {V : Type} (k : string) (v : V) (d : dict V) : dict V :=
  match d with
  | [] => [(k, v)]
  | (k', v') :: d' =>
    if decide (k = k') then (k, v) :: d' else (k', v') :: dict_set k v d'
  end.

(** [del d[k]], for a key that is there (every [del] of the source comes
    after a membership test). *)
Fixpoint dict_del {V : Type} (k : string) (d : dict V) : dict V :=
  match d with
  | [] => []
  | (k', v) :: d' => if decide (k = k') then d' else (k', v) :: dict_del k d'
  end.

(** What a change [f] made in place to the object [d[k]] does to [d]. *)
Fixpoint dict_alter {V : Type} (f : V → V) (k : string) (d : dict V) : dict V :=
  match d with
  | [] => []
  | (k', v) :: d' =>
    if decide (k = k') then (k', f v) :: d' else (k', v) :: dict_alter f k d'
  end.

Definition slash : Ascii.ascii := Ascii.ascii_of_nat 47.

(** [s.split("/")] *)
Fixpoint split_slash (s : string) : list string :=
  match s with
  | EmptyString => [EmptyString]
  | String c s' =>
    if decide (c = slash) then EmptyString :: split_slash s'
    else
      match split_slash s' with
      | part :: parts => String c part :: parts
      | [] => [String c EmptyString]
      end
  end.

(** [s.startswith("/")] *)
Definition starts_with_slash (s : string) : bool :=
  match s with
  | String c _ => bool_decide (c = slash)
  | EmptyString => false
  end.

(** ["/".join(parts)] *)
Fixpoint join_slash (parts : list string) : string :=
  match parts with
  | [] => ""
  | [part] => part
  | part :: rest => part +:+ "/" +:+ join_slash rest
  end.

(** The rest of the arithmetic the price methods use. *)
Class PyArith (num : Type) : Type := {
  py_add : num → num → num;   (* [x + y] *)
  py_int_zero : num;          (* [0] *)
  py_float_zero : num         (* [0.0] *)
}.

#[export] Instance float_arith : PyArith float := {
  py_add x y := (x + y)%float;
  py_int_zero := 0%float;
  py_float_zero := 0%float
}.

(** A JSON file as [os.path.exists] and [json.load] find it. *)
Inductive json_file (A : Type) : Type :=
  | NoFile
  | BadJson
  | JsonOf (data : A).
Arguments NoFile {A}.
Arguments BadJson {A}.
Arguments JsonOf {A} data.

(** What [calculate_recipe_price] does: return a price or [None], pass on
    an exception of the converter, raise [AttributeError], or (in the
    model only) run out of fuel. *)
Inductive price_result (num : Type) : Type :=
  | Price (price : option num)
  | PriceRaises (e : exn)
  | RaisesAttributeError (msg : string)
  | PriceOutOfFuel.
Arguments Price {num} price.
Arguments PriceRaises {num} e.
Arguments RaisesAttributeError {num} msg.
Arguments PriceOutOfFuel {num}.

(** The warning that [calculate_ingredient_price] prints when [convert]
    raised [e]; the printed line is made of these four parts. *)
Inductive warning : Type :=
  | CouldNotConvert (unit price_unit ingredient_name : string) (e : exn).

(** [if s:] for a string *)
Definition nonempty (s : string) : bool :=
  match s with
  | EmptyString => false
  | String _ _ => true
  end.

Section Prices.
Context {num : Type} `{PyNumber num} `{PyArith num}.

(** [str.lower()] *)
Variable lower : string → string.

(** An entry of the price data: a JSON object with the optional keys
    ["price"] and ["measurement"]. *)
Record price_info : Type := PriceInfo {
  info_price : option num;
  info_measurement : option string
}.

(** An entry of a recipe's ingredients: a JSON object with the optional
    keys ["amount"] and ["unit"]. *)
Record ingredient_info : Type := IngredientInfo {
  info_amount : option num;
  info_unit : option string
}.

(** [recipe["ingredients"]]: a dict by ingredient name, or the list of
    names that the earlier format stored. *)
Inductive ingredients : Type :=
  | Structured (items : dict ingredient_info)
  | Legacy (names : list string).

(** A recipe dict; ["ingredients"] and ["notes"] may be absent. *)
Record recipe : Type := Recipe {
  recipe_ingredients : option ingredients;
  recipe_instructions : string;
  recipe_notes : option string
}.

(** A node of the catalogue, [{"folders": {...}, "recipes": {...}}]. *)
#[warning="-register-all"]
Inductive tree : Type :=
  | Node (subfolders : dict tree) (held : dict recipe).

(** [node["folders"]] and [node["recipes"]] *)
Definition node_folders (node : tree) : dict tree :=
  match node with Node subfolders _ => subfolders end.

Definition node_recipes (node : tree) : dict recipe :=
  match node with Node _ held => held end.

(** The attributes of a [RecipeManager]. *)
Record manager : Type := Manager {
  data_file : string;
  price_file : string;
  recipes : tree;
  price_data : dict price_info;
  current_path : list string
}.

(** [load_price_data], given the path in [self.price_file] and what the
    file under it holds; with the data, the lines printed. *)
Definition load_price_data (path : string)
    (file : json_file (dict price_info)) : dict price_info * list string :=
  match file with
  | JsonOf data => (data, [])
  | BadJson =>
    ([], ["Error reading " +:+ path +:+ ", creating empty price database."])
  | NoFile =>
    ([], ["Price file " +:+ path
          +:+ " not found, creating empty price database."])
  end.

(** [add_ingredient_price]: the manager after the call, what
    [save_price_data] leaves in the price file, and the lines printed. *)
Definition add_ingredient_price (self : manager)
    (ingredient_name : string) (price : num) (measurement : string)
    : manager * json_file (dict price_info) * list string :=
  let new_data :=
    dict_set (lower ingredient_name)
      {| info_price := Some price; info_measurement := Some measurement |}
      (price_data self) in
  ({| data_file := data_file self;
      price_file := price_file self;
      recipes := recipes self;
      price_data := new_data;
      current_path := current_path self |},
   JsonOf new_data,
   ["Price data saved to " +:+ price_file self;
    "Price data for '" +:+ ingredient_name +:+ "' added/updated."]).

(** [calculate_ingredient_price]. The result carries the warnings printed
    and the converter's class state. *)
Definition calculate_ingredient_price (fs : filesystem num)
    (self : manager) (ingredient_name : string)
    (amount : num) (unit : string) (st : class_state num)
    : outcome (option num) * list warning * class_state num :=
  let ingredient_key := lower ingredient_name in
  match dict_get ingredient_key (price_data self) with
  | Some price_info =>
    let price_per_unit := default py_int_zero (info_price price_info) in
    let price_unit := default "" (info_measurement price_info) in
    if bool_decide (unit ≠ price_unit) && nonempty unit && nonempty price_unit
    then
      match convert fs amount unit price_unit None st with
      | (Ret converted_amount, st') =>
        (Ret (Some (py_mul converted_amount price_per_unit)), [], st')
      | (Raise e, st') =>
        (Ret None, [CouldNotConvert unit price_unit ingredient_name e], st')
      | (OutOfFuel, st') => (OutOfFuel, [], st')
      end
    else (Ret (Some (py_mul amount price_per_unit)), [], st)
  | None => (Ret None, [], st)
  end.

(** The [for ingredient_name, ingredient_info in ...items()] loop of
    [calculate_recipe_price], from the accumulators [total_price] and
    [missing_prices] on. *)
Fixpoint price_ingredients (fs : filesystem num) (self : manager)
    (items : list (string * ingredient_info))
    (total_price : num) (missing_prices : list string)
    (printed : list warning) (st : class_state num)
    : outcome (num * list string) * list warning * class_state num :=
  match items with
  | [] => (Ret (total_price, missing_prices), printed, st)
  | (ingredient_name, ingredient_info) :: rest =>
    let amount := default py_int_zero (info_amount ingredient_info) in
    let unit := default "" (info_unit ingredient_info) in
    match calculate_ingredient_price fs self ingredient_name
            amount unit st with
    | (Ret (Some ingredient_price), w, st') =>
      price_ingredients fs self rest
        (py_add total_price ingredient_price) missing_prices
        (printed ++ w) st'
    | (Ret None, w, st') =>
      price_ingredients fs self rest
        total_price (missing_prices ++ [ingredient_name])
        (printed ++ w) st'
    | (Raise e, w, st') => (Raise e, printed ++ w, st')
    | (OutOfFuel, w, st') => (OutOfFuel, printed ++ w, st')
    end
  end.

Definition no_items_message : string :=
  "'list' object has no attribute 'items'".

(** [calculate_recipe_price] *)
Definition calculate_recipe_price (fs : filesystem num)
    (self : manager) (recipe_data : recipe)
    (st : class_state num) : price_result num * list warning * class_state num :=
  match recipe_ingredients recipe_data with
  | None => (Price None, [], st)
  | Some (Legacy []) => (Price None, [], st)
  | Some (Structured []) => (Price None, [], st)
  | Some (Legacy (_ :: _)) => (RaisesAttributeError no_items_message, [], st)
  | Some (Structured items) =>
    match price_ingredients fs self items py_float_zero [] [] st with
    | (Ret (total_price, missing_prices), printed, st') =>
      if bool_decide (missing_prices ≠ [])
         && bool_decide (length missing_prices = length items)
      then (Price None, printed, st')
      else (Price (Some total_price), printed, st')
    | (Raise e, printed, st') => (PriceRaises e, printed, st')
    | (OutOfFuel, printed, st') => (PriceOutOfFuel, printed, st')
    end
  end.

(** What [calculate_ingredient_price] returns for one item of a recipe's
    ingredients, called in the class state [st]. *)
Definition price_of_item (fs : filesystem num) (self : manager)
    (st : class_state num) (item : string * ingredient_info) : option num :=
  match
    (calculate_ingredient_price fs self item.1
       (default py_int_zero (info_amount item.2))
       (default "" (info_unit item.2)) st).1.1
  with
  | Ret price => price
  | _ => None
  end.

(** What [calculate_ingredient_price] prints for one item of a recipe's
    ingredients, called in the class state [st]. *)
Definition warnings_of_item (fs : filesystem num) (self : manager)
    (st : class_state num) (item : string * ingredient_info)
    : list warning :=
  (calculate_ingredient_price fs self item.1
     (default py_int_zero (info_amount item.2))
     (default "" (info_unit item.2)) st).1.2.

(** *** The catalogue: navigation, folders, moving a recipe *)

Definition with_path (self : manager) (path : list string) : manager :=
  {| data_file := data_file self;
     price_file := price_file self;
     recipes := recipes self;
     price_data := price_data self;
     current_path := path |}.

Definition with_recipes (self : manager) (root : tree) : manager :=
  {| data_file := data_file self;
     price_file := price_file self;
     recipes := root;
     price_data := price_data self;
     current_path := current_path self |}.

(** The loop of [get_current_node]: [node = node["folders"][folder]] for
    each folder of the path. *)
Fixpoint node_at (node : tree) (path : list string) : outcome tree :=
  match path with
  | [] => Ret node
  | folder :: rest =>
    match dict_get folder (node_folders node) with
    | Some child => node_at child rest
    | None => Raise (KeyError folder)
    end
  end.

Definition get_current_node (self : manager) : outcome tree :=
  node_at (recipes self) (current_path self).

(** [enter_folder]: the value returned, the manager after the call and
    the lines printed. *)
Definition enter_folder (self : manager) (folder_name : string)
    : outcome bool * manager * list string :=
  match get_current_node self with
  | Ret current =>
    match dict_get folder_name (node_folders current) with
    | Some _ =>
      (Ret true, with_path self (current_path self ++ [folder_name]), [])
    | None =>
      (Ret false, self, ["Folder '" +:+ folder_name +:+ "' doesn't exist!"])
    end
  | Raise e => (Raise e, self, [])
  | OutOfFuel => (OutOfFuel, self, [])
  end.

Definition go_up (self : manager) : bool * manager * list string :=
  match current_path self with
  | [] => (false, self, ["Already at root directory!"])
  | _ :: _ => (true, with_path self (removelast (current_path self)), [])
  end.

(** The catalogue after a change [f] made in place to the node under
    [path]: in the tree, a node object is reached by one path only. *)
Fixpoint update_at (path : list string) (f : tree → tree) (node : tree)
    : tree :=
  match path with
  | [] => f node
  | folder :: rest =>
    Node (dict_alter (update_at rest f) folder (node_folders node))
      (node_recipes node)
  end.

Definition saved_message (self : manager) : string :=
  "Recipes saved to " +:+ data_file self.

(** [create_folder]: with the result, the manager after the call, the
    lines printed, and what [save_recipes] wrote to the data file if it
    was called. *)
Definition create_folder (self : manager) (folder_name : string)
    : outcome unit * manager * list string * option tree :=
  match get_current_node self with
  | Ret current =>
    match dict_get folder_name (node_folders current) with
    | Some _ =>
      (Ret tt, self,
       ["Folder '" +:+ folder_name +:+ "' already exists!"], None)
    | None =>
      let root :=
        update_at (current_path self)
          (λ node, Node (dict_set folder_name (Node [] []) (node_folders node))
                     (node_recipes node))
          (recipes self) in
      (Ret tt, with_recipes self root,
       [saved_message self; "Folder '" +:+ folder_name +:+ "' created!"],
       Some root)
    end
  | Raise e => (Raise e, self, [], None)
  | OutOfFuel => (OutOfFuel, self, [], None)
  end.

(** [delete_folder]; [answer] is the line that [input] reads, if the call
    gets as far as asking. *)
Definition delete_folder (self : manager) (folder_name : string)
    (answer : string) : outcome unit * manager * list string * option tree :=
  match get_current_node self with
  | Ret current =>
    match dict_get folder_name (node_folders current) with
    | Some folder =>
      match node_folders folder, node_recipes folder with
      | [], [] =>
        let prompt :=
          "Are you sure you want to delete folder '" +:+ folder_name
          +:+ "'? (y/n): " in
        if decide (lower answer = "y")
        then
          let root :=
            update_at (current_path self)
              (λ node, Node (dict_del folder_name (node_folders node))
                         (node_recipes node))
              (recipes self) in
          (Ret tt, with_recipes self root,
           [prompt; saved_message self;
            "Folder '" +:+ folder_name +:+ "' deleted!"],
           Some root)
        else (Ret tt, self, [prompt; "Deletion cancelled."], None)
      | _, _ =>
        (Ret tt, self,
         ["Folder '" +:+ folder_name +:+ "' is not empty! Delete contents first."],
         None)
      end
    | None =>
      (Ret tt, self, ["Folder '" +:+ folder_name +:+ "' doesn't exist!"], None)
    end
  | Raise e => (Raise e, self, [], None)
  | OutOfFuel => (OutOfFuel, self, [], None)
  end.

(** The [for part in path_parts] loop of [move_recipe], from [dest_node]
    and [full_path] on: it ends with the two, or at the first part that
    names no folder. *)
Fixpoint walk_destination (root : tree) (path_parts : list string)
    (dest_node : tree) (full_path : list string)
    : outcome (string + tree * list string) :=
  match path_parts with
  | [] => Ret (inr (dest_node, full_path))
  | part :: rest =>
    if decide (part = "..")
    then
      match full_path with
      | [] => walk_destination root rest dest_node full_path
      | _ :: _ =>
        let full_path := removelast full_path in
        match node_at root full_path with
        | Ret dest_node => walk_destination root rest dest_node full_path
        | Raise e => Raise e
        | OutOfFuel => OutOfFuel
        end
      end
    else
      match dict_get part (node_folders dest_node) with
      | Some child => walk_destination root rest child (full_path ++ [part])
      | None => Ret (inl part)
      end
  end.

(** The first half of [move_recipe], once the recipe is known to be in
    [current]: the destination is split into its parts and walked, from
    the root for a path that starts with a slash, from [current] for any
    other. *)
Definition find_destination (self : manager) (current : tree)
    (destination_path : string) : outcome (string + tree * list string) :=
  let path_parts := List.filter nonempty (split_slash destination_path) in
  let start :=
    if starts_with_slash destination_path
    then (recipes self, [])
    else (current, current_path self) in
  walk_destination (recipes self) path_parts start.1 start.2.

(** [move_recipe] *)
Definition move_recipe (self : manager) (recipe_name : string)
    (destination_path : string)
    : outcome unit * manager * list string * option tree :=
  match get_current_node self with
  | Ret current =>
    match dict_get recipe_name (node_recipes current) with
    | None =>
      (Ret tt, self, ["Recipe '" +:+ recipe_name +:+ "' doesn't exist!"], None)
    | Some recipe_data =>
      match find_destination self current destination_path with
      | Ret (inl part) =>
        (Ret tt, self,
         ["Destination folder '" +:+ part +:+ "' doesn't exist!"], None)
      | Ret (inr (dest_node, full_path)) =>
        let put :=
          update_at full_path
            (λ node, Node (node_folders node)
                       (dict_set recipe_name recipe_data (node_recipes node)))
            (recipes self) in
        let root :=
          update_at (current_path self)
            (λ node, Node (node_folders node)
                       (dict_del recipe_name (node_recipes node)))
            put in
        let dest_path_str :=
          match full_path with
          | [] => "/"
          | _ :: _ => "/" +:+ join_slash full_path
          end in
        (Ret tt, with_recipes self root,
         [saved_message self;
          "Recipe '" +:+ recipe_name +:+ "' moved to " +:+ dest_path_str],
         Some root)
      | Raise e => (Raise e, self, [], None)
      | OutOfFuel => (OutOfFuel, self, [], None)
      end
    end
  | Raise e => (Raise e, self, [], None)
  | OutOfFuel => (OutOfFuel, self, [], None)
  end.

(** The class states a run of price calculations can pass through when
    it starts in [st]: [st] itself, or a state that has cached the table
    which a load in [st] returns. *)
Definition in_view (fs : filesystem num) (st st_i : class_state num) : Prop :=
  st_i = st
  ∨ (coherent st_i
     ∧ ∃ factors, _conversion_factors st_i = Some factors
         ∧ (_get_conversion_factors fs None st).1 = Ret factors).

End Prices.

Arguments price_info num : clear implicits.
Arguments ingredient_info num : clear implicits.
Arguments ingredients num : clear implicits.
Arguments recipe num : clear implicits.
Arguments tree num : clear implicits.
Arguments manager num : clear implicits.

(** ** Concrete tables and files, with binary64 factors *)

(** The table of the scenario: pounds to ounces to grams. *)
Definition scenario_table : table float :=
  [("lb", [("oz", 16%float)]); ("oz", [("g", 28.35%float)])].

(** Two chains from [a] to [c]; the one through [d] is listed first. *)
Definition two_chains_table : table float :=
  [("a", [("d", 2%float); ("b", 3%float)]);
   ("d", [("c", 5%float)]);
   ("b", [("c", 7%float)])].

(** A chain from [a] to [c], and an entry back from [c] to [a]. *)
Definition way_back_table : table float :=
  [("a", [("b", 2%float)]); ("b", [("c", 3%float)]); ("c", [("a", 10%float)])].

(** Both directions stored, with factors that are not reciprocal. *)
Definition both_ways_table : table float :=
  [("a", [("b", 2%float)]); ("b", [("a", 3%float)])].

(** A self-loop. *)
Definition self_loop_table : table float := [("a", [("a", 2%float)])].

(** [c] is linked to [a] only through [b], and only against the direction
    of the entry [c → b]. *)
Definition against_the_grain_table : table float :=
  [("a", [("b", 2%float)]); ("c", [("b", 3%float)])].

Definition other_table : table float := [("cup", [("ml", 236.59%float)])].


(** A filesystem with no file at all, and one with a single JSON file. *)
Definition no_files : filesystem float := λ _, Missing.

Definition one_file (path : string) (factors : table float) : filesystem float :=
  λ p, if decide (p = path) then Json factors else Missing.


(** The class state after a first [convert] call loaded [factors] from the
    default file. *)
Definition loaded_state (factors : table float) : class_state float :=
  {| _conversion_factors := Some factors;
     _default_conversion_file := "conversions.json";
     lru_slot := Some (None, factors) |}.

(** A [convert] with a per-call file and a [get_available_units], made
    when no file can be read any more. *)
Definition later_calls : list (filesystem float * call float) :=
  [(no_files, CallConvert 1%float "lb" "oz" (Some "other.json"));
   (no_files, CallAvailable None)].

(** [str.lower()] on ASCII text. *)
Definition lower_ascii_char (c : Ascii.ascii) : Ascii.ascii :=
  let n := Ascii.nat_of_ascii c in
  if (65 <=? n)%nat && (n <=? 90)%nat then Ascii.ascii_of_nat (n + 32) else c.

Fixpoint lower_ascii (s : string) : string :=
  match s with
  | EmptyString => EmptyString
  | String c s' => String (lower_ascii_char c) (lower_ascii s')
  end.

(** A manager with an empty catalogue and two prices: onions by the
    ounce, shrimp by the pound. *)
Definition pantry : manager float :=
  {| data_file := "recipes.json";
     price_file := "ingredients.json";
     recipes := Node [] [];
     price_data :=
       [("onion",
         {| info_price := Some 0.5%float; info_measurement := Some "oz" |});
        ("shrimp",
         {| info_price := Some 12%float; info_measurement := Some "lb" |})];
     current_path := [] |}.

(** A recipe with its ingredients by name: the onions are in the unit
    of their price, the shrimp in ounces, and saffron has no price. *)
Definition stew : recipe float :=
  {| recipe_ingredients :=
       Some (Structured
               [("Onion", {| info_amount := Some 8%float; info_unit := Some "oz" |});
                ("Shrimp", {| info_amount := Some 16%float; info_unit := Some "oz" |});
                ("Saffron", {| info_amount := Some 1%float; info_unit := Some "g" |})]);
     recipe_instructions := "Simmer.";
     recipe_notes := None |}.

(** A manager at the root of a catalogue with one recipe and two
    folders, one of them empty. *)
Definition kitchen : manager float :=
  {| data_file := "recipes.json";
     price_file := "ingredients.json";
     recipes :=
       Node [("soups", Node [] [("stew", {| recipe_ingredients := None;
                                            recipe_instructions := "Boil.";
                                            recipe_notes := None |})]);
             ("old", Node [] [])]
            [("stew", stew)];
     price_data := [];
     current_path := [] |}.

(** ** Lemmas on dicts *)

Lemma dict_get_is_Some {V : Type} (k : string) (d : dict V) :
  is_Some (dict_get k d) ↔ k ∈ dict_keys d.
Proof.
  unfold dict_keys. induction d as [|[k' v] d IH]; simpl.
  - split; [intros [? ?]; discriminate | intros Hin; inversion Hin].
  - case_decide as Hk; subst.
    + split; [intros _; left | intros _; eauto].
    + rewrite IH. split; [by right | ].
      intros Hin. inversion Hin; subst; [done | assumption].
Qed.

Lemma dict_get_None {V : Type} (k : string) (d : dict V) :
  dict_get k d = None ↔ k ∉ dict_keys d.
Proof.
  rewrite <- dict_get_is_Some, eq_None_not_Some. reflexivity.
Qed.

Lemma dict_get_app_fresh {V : Type} (k : string) (pre d : dict V) :
  k ∉ dict_keys pre → dict_get k (pre ++ d) = dict_get k d.
Proof.
  unfold dict_keys. induction pre as [|[k' v] pre IH]; simpl; [done|].
  intros Hk. case_decide; subst.
  - exfalso. apply Hk. left.
  - apply IH. intros Hin. apply Hk. by right.
Qed.

Lemma dict_keys_app {V : Type} (d1 d2 : dict V) :
  dict_keys (d1 ++ d2) = dict_keys d1 ++ dict_keys d2.
Proof. unfold dict_keys. apply fmap_app. Qed.

(** ** The depth-first search *)

Section Search.
Context {num : Type} `{PyNumber num}.
Implicit Types (factors : table num) (visited V : gset string).
Implicit Types (r : option (list (leg num))).

Lemma truthy_true r : truthy r = true → ∃ l p, r = Some (l :: p).
Proof. destruct r as [[|l p]|]; simpl; intros; try discriminate; eauto. Qed.

Lemma sources_size factors : size (sources factors) ≤ length factors.
Proof.
  unfold sources, dict_keys. induction factors as [|[k row] factors IH].
  - rewrite fmap_nil, list_to_set_nil, size_empty. lia.
  - rewrite fmap_cons, list_to_set_cons, size_union_alt, size_singleton.
    assert (size (list_to_set factors.*1 ∖ {[k]} : gset string)
            ≤ size (list_to_set factors.*1 : gset string)) as Hle
      by (apply subseteq_size; set_solver).
    simpl in *. lia.
Qed.

Lemma source_of_entry factors u (row : dict num) :
  dict_get u factors = Some row → u ∈ sources factors.
Proof.
  intros Hrow. unfold sources.
  apply elem_of_list_to_set, dict_get_is_Some. rewrite Hrow. eauto.
Qed.

(** Visiting a table key leaves fewer unvisited keys. *)
Lemma visiting_source_shrinks factors u V :
  u ∈ sources factors → u ∉ V →
  size (sources factors ∖ ({[u]} ∪ V)) < size (sources factors ∖ V).
Proof.
  intros Hsrc Hu. apply subset_size. split; [set_solver|].
  intros Hsup. assert (u ∈ sources factors ∖ ({[u]} ∪ V)) by set_solver.
  set_solver.
Qed.

Lemma neighbours_edge factors current u :
  u ∈ dict_keys (neighbours factors current) ↔ edge factors current u.
Proof.
  unfold edge, factor_of, neighbours.
  destruct (dict_get current factors) as [row|]; simpl.
  - symmetry. apply dict_get_is_Some.
  - split; [intros Hin; inversion Hin | intros [? ?]; discriminate].
Qed.

(** *** The visited set only grows *)

Lemma try_intermediates_grows search factors current :
  (∀ u V r V', search u V = Ret (r, V') → {[u]} ∪ V ⊆ V') →
  ∀ units V r V',
    try_intermediates search factors current units V = Ret (r, V') → V ⊆ V'.
Proof.
  intros Hs units. induction units as [|u units IH]; simpl; intros V r V' Hr.
  - by inversion Hr.
  - case_decide; [eauto|].
    destruct (search u V) as [[p V1]| |] eqn:Hu; try done.
    apply Hs in Hu. destruct (truthy p).
    + destruct (factor_of _ _ _); inversion Hr; subst. set_solver.
    + apply IH in Hr. set_solver.
Qed.

Lemma find_conversion_path_grows factors target fuel :
  ∀ current V r V',
    find_conversion_path factors fuel target current V = Ret (r, V') →
    {[current]} ∪ V ⊆ V'.
Proof.
  induction fuel as [|fuel IH]; simpl; intros current V r V' Hr; [done|].
  destruct (factor_of factors current target).
  - by inversion Hr.
  - eapply try_intermediates_grows; [|exact Hr]. exact IH.
Qed.

(** *** The search returns: fuel beyond the number of unvisited table keys
    is never used up, and no [KeyError] is raised *)

Lemma try_intermediates_returns search factors current n :
  (∀ u V r V', search u V = Ret (r, V') → {[u]} ∪ V ⊆ V') →
  (∀ u V, u ∉ V → size (sources factors ∖ V) < n → ∃ res, search u V = Ret res) →
  ∀ units V,
    (∀ u, u ∈ units → edge factors current u) →
    size (sources factors ∖ V) < n →
    ∃ res, try_intermediates search factors current units V = Ret res.
Proof.
  intros Hgrow Hret units.
  induction units as [|u units IH]; simpl; intros V Hedge Hsz; [eauto|].
  assert (∀ u', u' ∈ units → edge factors current u') as Hedge'
    by (intros; apply Hedge; by right).
  case_decide as Hu; [eauto|].
  destruct (Hret u V Hu Hsz) as [[p V1] Hs]. rewrite Hs.
  destruct (truthy p).
  - destruct (Hedge u) as [f Hf]; [left|]. rewrite Hf. eauto.
  - apply IH; [done|]. apply Hgrow in Hs.
    eapply Nat.le_lt_trans; [|exact Hsz]. apply subseteq_size. set_solver.
Qed.

Lemma find_conversion_path_returns factors target fuel :
  ∀ current V,
    current ∉ V → size (sources factors ∖ V) < fuel →
    ∃ res, find_conversion_path factors fuel target current V = Ret res.
Proof.
  induction fuel as [|fuel IH]; intros current V Hc Hsz; [lia|]. simpl.
  destruct (factor_of factors current target); [eauto|].
  destruct (dict_get current factors) as [row|] eqn:Hrow.
  - apply try_intermediates_returns with (n := fuel).
    + apply find_conversion_path_grows.
    + exact IH.
    + intros u Hu. by apply neighbours_edge.
    + pose proof (visiting_source_shrinks factors current V
                    (source_of_entry _ _ _ Hrow) Hc).
      lia.
  - unfold neighbours. rewrite Hrow. simpl. eauto.
Qed.

(** The search itself raises nothing, on any fuel: the factor it reads
    back for a leg is stored under a key it is iterating over. *)
Lemma try_intermediates_no_raise search factors current :
  (∀ u V e, search u V ≠ Raise e) →
  ∀ units V e,
    (∀ u, u ∈ units → edge factors current u) →
    try_intermediates search factors current units V ≠ Raise e.
Proof.
  intros Hs units. induction units as [|u units IH]; simpl; intros V e Hedge.
  - done.
  - assert (∀ u', u' ∈ units → edge factors current u') as Hedge'
      by (intros; apply Hedge; by right).
    case_decide; [eauto|].
    destruct (search u V) as [[p V1]|e'|] eqn:Hu; [|by destruct (Hs u V e')|done].
    destruct (truthy p); [|eauto].
    destruct (Hedge u) as [f Hf]; [left|]. by rewrite Hf.
Qed.

Lemma find_conversion_path_no_raise factors target fuel :
  ∀ current V e,
    find_conversion_path factors fuel target current V ≠ Raise e.
Proof.
  induction fuel as [|fuel IH]; simpl; intros current V e; [done|].
  destruct (factor_of factors current target); [done|].
  apply try_intermediates_no_raise; [exact IH|].
  intros u Hu. by apply neighbours_edge.
Qed.

(** More fuel does not change what a search that returned returns. *)
Lemma try_intermediates_mono search search' factors current :
  (∀ u V res, search u V = Ret res → search' u V = Ret res) →
  ∀ units V res,
    try_intermediates search factors current units V = Ret res →
    try_intermediates search' factors current units V = Ret res.
Proof.
  intros Hs units. induction units as [|u units IH]; simpl; intros V res Hr; [done|].
  case_decide; [eauto|].
  destruct (search u V) as [[p V1]| |] eqn:Hu; try done.
  rewrite (Hs _ _ _ Hu). destruct (truthy p); [done | eauto].
Qed.

Lemma find_conversion_path_fuel_mono factors target fuel :
  ∀ fuel' current V res,
    fuel ≤ fuel' →
    find_conversion_path factors fuel target current V = Ret res →
    find_conversion_path factors fuel' target current V = Ret res.
Proof.
  induction fuel as [|fuel IH]; intros fuel' current V res Hle Hr; [done|].
  destruct fuel' as [|fuel']; [lia|]. simpl in *.
  destruct (factor_of factors current target); [done|].
  eapply try_intermediates_mono; [|exact Hr].
  intros u V0 res0. apply IH. lia.
Qed.

(** *** What a found path is: a chain of forward table entries *)

Lemma try_intermediates_sound search factors target current :
  (∀ u V r V', search u V = Ret (r, V') → truthy r = true →
     chain factors u target (default [] r)) →
  ∀ units V r V',
    try_intermediates search factors current units V = Ret (r, V') →
    truthy r = true → chain factors current target (default [] r).
Proof.
  intros Hs units. induction units as [|u units IH]; simpl; intros V r V' Hr Ht.
  - inversion Hr; subst. discriminate.
  - case_decide; [eauto|].
    destruct (search u V) as [[p V1]| |] eqn:Hu; try done.
    destruct (truthy p) eqn:Hp; [|eauto].
    destruct (factor_of factors current u) as [f|] eqn:Hf; [|done].
    inversion Hr; subst. simpl.
    apply chain_cons; [done|]. eapply Hs; eauto.
Qed.

Lemma find_conversion_path_sound factors target fuel :
  ∀ current V r V',
    find_conversion_path factors fuel target current V = Ret (r, V') →
    truthy r = true → chain factors current target (default [] r).
Proof.
  induction fuel as [|fuel IH]; simpl; intros current V r V' Hr Ht; [done|].
  destruct (factor_of factors current target) as [f|] eqn:Hf.
  - inversion Hr; subst. simpl. by apply chain_last.
  - eapply try_intermediates_sound; eauto.
Qed.

Lemma chain_forward_path factors u v path :
  chain factors u v path → forward_path factors u v.
Proof.
  induction 1 as [u v f Hf | u w v f path Hf _ IH].
  - apply tc_once. unfold edge. rewrite Hf. eauto.
  - eapply tc_l; [|exact IH]. unfold edge. rewrite Hf. eauto.
Qed.

(** Along a chain the value is multiplied by each stored factor in turn. *)
Lemma apply_path_cons (value : num) (l : leg num) (path : list (leg num)) :
  apply_path value (l :: path) = apply_path (py_mul value l.2) path.
Proof. reflexivity. Qed.

(** *** What the search visits: only units reached from where it starts *)

Lemma try_intermediates_reach search factors current :
  (∀ u V r V', search u V = Ret (r, V') →
     ∀ x, x ∈ V' → x ∈ V ∨ rtc (edge factors) u x) →
  ∀ units V r V',
    (∀ u, u ∈ units → edge factors current u) →
    try_intermediates search factors current units V = Ret (r, V') →
    ∀ x, x ∈ V' → x ∈ V ∨ forward_path factors current x.
Proof.
  intros Hs units. induction units as [|u units IH]; simpl;
    intros V r V' Hedge Hr x Hx.
  - inversion Hr; subst. by left.
  - assert (∀ u', u' ∈ units → edge factors current u') as Hedge'
      by (intros; apply Hedge; by right).
    case_decide; [eauto|].
    destruct (search u V) as [[p V1]| |] eqn:Hu; try done.
    assert (∀ y, y ∈ V1 → y ∈ V ∨ forward_path factors current y) as Hstep.
    { intros y Hy. destruct (Hs _ _ _ _ Hu y Hy) as [?|Hreach]; [by left|].
      right. eapply tc_rtc_r; [|exact Hreach]. apply tc_once, Hedge. left. }
    destruct (truthy p).
    + destruct (factor_of factors current u); inversion Hr; subst. eauto.
    + destruct (IH _ _ _ Hedge' Hr x Hx) as [?|?]; [eauto | by right].
Qed.

Lemma find_conversion_path_reach factors target fuel :
  ∀ current V r V',
    find_conversion_path factors fuel target current V = Ret (r, V') →
    ∀ x, x ∈ V' → x ∈ V ∨ rtc (edge factors) current x.
Proof.
  induction fuel as [|fuel IH]; simpl; intros current V r V' Hr x Hx; [done|].
  destruct (factor_of factors current target).
  - inversion Hr; subst.
    apply elem_of_union in Hx as [Hx|?]; [|by left].
    apply elem_of_singleton in Hx as ->. by right.
  - eapply try_intermediates_reach in Hr as [Hin|Hfwd]; [| |exact IH| |exact Hx].
    + apply elem_of_union in Hin as [Hin|?]; [|by left].
      apply elem_of_singleton in Hin as ->. by right.
    + right. by apply tc_rtc.
    + intros u Hu. by apply neighbours_edge.
Qed.

(** *** What a failed search leaves behind *)

Lemma try_intermediates_explored search factors target current :
  (∀ u V r V', search u V = Ret (r, V') → {[u]} ∪ V ⊆ V') →
  (∀ u V r V', search u V = Ret (r, V') → truthy r = false →
     explored factors target V V') →
  ∀ units V r V',
    try_intermediates search factors current units V = Ret (r, V') →
    truthy r = false →
    explored factors target V V' ∧ ∀ u, u ∈ units → u ∈ V'.
Proof.
  intros Hgrow Hs units.
  induction units as [|u units IH]; simpl; intros V r V' Hr Ht.
  - inversion Hr; subst. split; [intros x ? ?; done | intros u Hu; inversion Hu].
  - pose proof (try_intermediates_grows search factors current Hgrow) as Hg.
    case_decide as Hu.
    + destruct (IH _ _ _ Hr Ht) as [Hex Hin]. split; [done|].
      intros u' Hu'. apply Hg in Hr.
      inversion Hu'; subst; [set_solver | eauto].
    + destruct (search u V) as [[p V1]| |] eqn:Hsu; try done.
      destruct (truthy p) eqn:Hp.
      { destruct (factor_of factors current u); inversion Hr; subst. done. }
      destruct (IH _ _ _ Hr Ht) as [Hex Hin].
      pose proof (Hs _ _ _ _ Hsu Hp) as Hex1.
      apply Hgrow in Hsu. apply Hg in Hr. split.
      * intros x Hx HxV. destruct (decide (x ∈ V1)) as [Hx1|Hx1].
        -- destruct (Hex1 x Hx1 HxV) as [Hnone Hsucc]. split; [done|].
           intros y Hy. apply Hr. eauto.
        -- eauto.
      * intros u' Hu'. inversion Hu'; subst; [set_solver | eauto].
Qed.

Lemma find_conversion_path_explored factors target fuel :
  ∀ current V r V',
    find_conversion_path factors fuel target current V = Ret (r, V') →
    truthy r = false → explored factors target V V'.
Proof.
  induction fuel as [|fuel IH]; simpl; intros current V r V' Hr Ht; [done|].
  destruct (factor_of factors current target) as [f|] eqn:Hf.
  - inversion Hr; subst. done.
  - eapply try_intermediates_explored in Hr as [Hex Hin];
      [| apply find_conversion_path_grows | exact IH | exact Ht].
    intros x Hx HxV. destruct (decide (x = current)) as [->|Hne].
    + split; [done|]. intros y Hy. by apply Hin, neighbours_edge.
    + apply Hex; [done|]. set_solver.
Qed.

(** A set that contains [u], is closed under forward edges and has no
    member with an entry for [target] shows that no forward path leads from
    [u] to [target]. *)
Lemma explored_no_forward_path factors target (V' : gset string) u :
  explored factors target ∅ V' → u ∈ V' → ¬ forward_path factors u target.
Proof.
  intros Hex Hu Hpath. unfold forward_path in Hpath.
  induction Hpath as [x y Hxy | x y z Hxy _ IH].
  - destruct (Hex x Hu) as [Hnone _]; [set_solver|].
    destruct Hxy as [f Hf]. congruence.
  - destruct (Hex x Hu) as [_ Hsucc]; [set_solver|]. eauto.
Qed.

(** *** The search as [convert] starts it *)

Lemma top_search_returns factors target from_unit :
  ∃ r V',
    find_conversion_path factors (search_fuel factors) target from_unit ∅
    = Ret (r, V').
Proof.
  destruct (find_conversion_path_returns factors target (search_fuel factors)
              from_unit ∅) as [[r V'] Hr]; [set_solver| |eauto].
  unfold search_fuel. pose proof (sources_size factors) as Hle.
  assert (size (sources factors ∖ ∅) ≤ size (sources factors))
    by (apply subseteq_size; set_solver).
  lia.
Qed.

Lemma top_search_fails factors target from_unit r V' :
  find_conversion_path factors (search_fuel factors) target from_unit ∅
  = Ret (r, V') →
  truthy r = false → ¬ forward_path factors from_unit target.
Proof.
  intros Hr Ht. eapply explored_no_forward_path.
  - eapply find_conversion_path_explored; eauto.
  - apply find_conversion_path_grows in Hr. set_solver.
Qed.

(** The search finds a path exactly when a forward path exists. *)
Lemma top_search_complete factors target from_unit :
  forward_path factors from_unit target →
  ∃ l path V',
    find_conversion_path factors (search_fuel factors) target from_unit ∅
    = Ret (Some (l :: path), V')
    ∧ chain factors from_unit target (l :: path).
Proof.
  intros Hfwd.
  destruct (top_search_returns factors target from_unit) as (r & V' & Hr).
  destruct (truthy r) eqn:Ht.
  - pose proof (find_conversion_path_sound _ _ _ _ _ _ _ Hr Ht) as Hch.
    apply truthy_true in Ht as (l & path & ->). eauto.
  - exfalso. eapply top_search_fails; eauto.
Qed.

Lemma top_search_none factors target from_unit :
  ¬ forward_path factors from_unit target →
  ∃ r V',
    find_conversion_path factors (search_fuel factors) target from_unit ∅
    = Ret (r, V') ∧ truthy r = false.
Proof.
  intros Hno.
  destruct (top_search_returns factors target from_unit) as (r & V' & Hr).
  exists r, V'. split; [done|].
  destruct (truthy r) eqn:Ht; [|done].
  exfalso. apply Hno. eapply chain_forward_path.
  eapply find_conversion_path_sound; eauto.
Qed.

(** *** No unit is expanded twice *)

Lemma try_intermediates_calls_fresh search calls factors current :
  (∀ u V r V', search u V = Ret (r, V') → {[u]} ∪ V ⊆ V') →
  (∀ u V, u ∉ V →
     NoDup (calls u V)
     ∧ (∀ x, x ∈ calls u V → x ∉ V)
     ∧ (∀ r V', search u V = Ret (r, V') → ∀ x, x ∈ calls u V → x ∈ V')) →
  ∀ units V,
    NoDup (try_intermediates_calls search calls units V)
    ∧ (∀ x, x ∈ try_intermediates_calls search calls units V → x ∉ V)
    ∧ (∀ r V',
         try_intermediates search factors current units V = Ret (r, V') →
         ∀ x, x ∈ try_intermediates_calls search calls units V → x ∈ V').
Proof.
  intros Hgrow Hcalls units.
  pose proof (try_intermediates_grows search factors current Hgrow) as Hg.
  induction units as [|u units IH]; intros V; simpl.
  - split; [constructor|]. split; intros; set_solver.
  - case_decide as Hu; [apply IH|].
    destruct (Hcalls u V Hu) as (Hnd & Hout & Hin).
    destruct (search u V) as [[p V1]| |] eqn:Hs.
    + specialize (Hin p V1 eq_refl). apply Hgrow in Hs.
      destruct (truthy p).
      * rewrite app_nil_r. split; [done|]. split; [done|].
        intros r V'. destruct (factor_of factors current u); [|done].
        intros [= <- <-]. done.
      * destruct (IH V1) as (Hnd' & Hout' & Hin'). split; [|split].
        -- apply NoDup_app. split; [done|]. split; [|done].
           intros x Hx Hx'. apply (Hout' x Hx'). by apply Hin.
        -- intros x Hx. apply elem_of_app in Hx as [Hx|Hx]; [by apply Hout|].
           apply Hout' in Hx. set_solver.
        -- intros r V' Hr x Hx. apply elem_of_app in Hx as [Hx|Hx].
           ++ apply Hg in Hr. apply Hin in Hx. set_solver.
           ++ eapply Hin'; eauto.
    + rewrite app_nil_r. split; [done|]. split; [done|]. intros; done.
    + rewrite app_nil_r. split; [done|]. split; [done|]. intros; done.
Qed.

Lemma expanded_units_fresh factors target fuel :
  ∀ current V, current ∉ V →
    NoDup (expanded_units factors fuel target current V)
    ∧ (∀ x, x ∈ expanded_units factors fuel target current V → x ∉ V)
    ∧ (∀ r V',
         find_conversion_path factors fuel target current V = Ret (r, V') →
         ∀ x, x ∈ expanded_units factors fuel target current V → x ∈ V').
Proof.
  induction fuel as [|fuel IH]; intros current V Hc; simpl.
  - split; [constructor|]. split; intros; set_solver.
  - destruct (factor_of factors current target) as [f|].
    + split; [apply NoDup_singleton|]. split.
      * intros x Hx. apply list_elem_of_singleton in Hx as ->. done.
      * intros r V' [= <- <-] x Hx.
        apply list_elem_of_singleton in Hx as ->. set_solver.
    + destruct (try_intermediates_calls_fresh
                  (find_conversion_path factors fuel target)
                  (expanded_units factors fuel target) factors current
                  (find_conversion_path_grows factors target fuel) IH
                  (dict_keys (neighbours factors current)) ({[current]} ∪ V))
        as (Hnd & Hout & Hin).
      split; [|split].
      * apply NoDup_cons. split; [|done]. intros Hx. apply Hout in Hx. set_solver.
      * intros x Hx. apply elem_of_cons in Hx as [->|Hx]; [done|].
        apply Hout in Hx. set_solver.
      * intros r V' Hr x Hx. apply elem_of_cons in Hx as [->|Hx].
        -- eapply try_intermediates_grows in Hr;
             [set_solver | apply find_conversion_path_grows].
        -- eapply Hin; eauto.
Qed.

(** *** Neighbours that lead nowhere are passed over *)

(** Searching from units that have no forward path to the target fails,
    and leaves unvisited every unit [b] that has an entry for the target. *)
Lemma try_intermediates_dead_ends factors target current fuel b :
  edge factors b target →
  ∀ pre V rest,
    (∀ k, k ∈ pre → ¬ forward_path factors k target) →
    size (sources factors ∖ V) < fuel →
    b ∉ V →
    ∃ V2, V ⊆ V2 ∧ (b ∉ V2) ∧
      (try_intermediates (find_conversion_path factors fuel target)
         factors current (pre ++ rest) V
       = try_intermediates (find_conversion_path factors fuel target)
           factors current rest V2).
Proof.
  intros Hb pre. induction pre as [|k pre IH]; intros V rest Hdead Hsz HbV.
  - exists V. done.
  - assert (∀ k', k' ∈ pre → ¬ forward_path factors k' target) as Hdead'
      by (intros; apply Hdead; by right).
    assert (¬ forward_path factors k target) as Hk by (apply Hdead; left).
    simpl. case_decide as HkV; [by apply IH|].
    destruct (find_conversion_path_returns factors target fuel k V HkV Hsz)
      as [[p V1] Hs].
    rewrite Hs. destruct (truthy p) eqn:Hp.
    { exfalso. apply Hk. eapply chain_forward_path.
      eapply find_conversion_path_sound; eauto. }
    pose proof (find_conversion_path_grows _ _ _ _ _ _ _ Hs) as Hgrow.
    destruct (IH V1 rest Hdead') as (V2 & Hsub & HbV2 & Heq).
    + eapply Nat.le_lt_trans; [|exact Hsz]. apply subseteq_size. set_solver.
    + intros HbV1.
      destruct (find_conversion_path_reach _ _ _ _ _ _ _ Hs b HbV1)
        as [?|Hreach]; [done|].
      apply Hk. eapply tc_rtc_l; [exact Hreach|]. by apply tc_once.
    + exists V2. split; [set_solver|]. done.
Qed.

End Search.

(** ** The loader and the cache *)

Section Loader.
Context {num : Type} `{PyNumber num}.
Implicit Types (factors : table num) (st : class_state num).
Implicit Types (fs : filesystem num).

Lemma coherent_initial (default_file : string) :
  coherent (num := num) (initial_state default_file).
Proof. intros key cached Hslot. discriminate. Qed.

Lemma coherent_empty st :
  coherent st → _conversion_factors st = None → lru_slot st = None.
Proof.
  intros Hco Hnone. destruct (lru_slot st) as [[key cached]|] eqn:Hslot; [|done].
  rewrite (Hco _ _ Hslot) in Hnone. discriminate.
Qed.

(** With a table cached, every load returns it, whatever its argument and
    whatever the files hold. *)
Lemma get_factors_cached fs file_path st factors :
  coherent st → _conversion_factors st = Some factors →
  ∃ st', _get_conversion_factors fs file_path st = (Ret factors, st')
    ∧ coherent st'
    ∧ _conversion_factors st' = Some factors
    ∧ _default_conversion_file st' = _default_conversion_file st.
Proof.
  intros Hco Hsome. unfold _get_conversion_factors, load_factors.
  rewrite Hsome.
  destruct (lru_slot st) as [[key cached]|] eqn:Hslot.
  - pose proof (Hco _ _ Hslot) as Heq. rewrite Hsome in Heq.
    inversion Heq; subst. case_decide.
    + exists st. done.
    + eexists. split; [done|]. split; [|done].
      intros k c Hk. simpl in *. congruence.
  - eexists. split; [done|]. split; [|done].
    intros k c Hk. simpl in *. congruence.
Qed.

(** With nothing cached, a load reads the file named by its argument, or
    the default file when there is none. *)
Lemma get_factors_empty fs file_path st :
  coherent st → _conversion_factors st = None →
  _get_conversion_factors fs file_path st =
    let path := default (_default_conversion_file st) file_path in
    match fs path with
    | Json factors =>
      (Ret factors,
       {| _conversion_factors := Some factors;
          _default_conversion_file := _default_conversion_file st;
          lru_slot := Some (file_path, factors) |})
    | Missing => (Raise (FileNotFoundError (not_found_message path)), st)
    | NotJson => (Raise (ValueError (invalid_json_message path)), st)
    end.
Proof.
  intros Hco Hnone. pose proof (coherent_empty _ Hco Hnone) as Hslot.
  unfold _get_conversion_factors, load_factors. rewrite Hslot, Hnone. simpl.
  by destruct (fs _).
Qed.

Lemma get_factors_coherent fs file_path st :
  coherent st → coherent (_get_conversion_factors fs file_path st).2.
Proof.
  intros Hco. destruct (_conversion_factors st) as [factors|] eqn:Hf.
  - destruct (get_factors_cached fs file_path st factors Hco Hf)
      as (st' & -> & Hco' & _). done.
  - rewrite get_factors_empty by done. simpl.
    destruct (fs _); simpl; [done|done|].
    intros k c Hk. simpl in *. congruence.
Qed.

(** The loader returns or raises; it has no recursion to run out of. *)
Lemma get_factors_not_out_of_fuel fs file_path st :
  (_get_conversion_factors fs file_path st).1 ≠ OutOfFuel.
Proof.
  unfold _get_conversion_factors, load_factors.
  destruct (lru_slot st) as [[key cached]|]; [case_decide; [done|]|];
    destruct (_conversion_factors st); simpl; try done;
    by destruct (fs _).
Qed.

(** The state a successful load leaves holds the table it returned. *)
Lemma get_factors_loaded fs file_path st factors st' :
  coherent st →
  _get_conversion_factors fs file_path st = (Ret factors, st') →
  coherent st' ∧ _conversion_factors st' = Some factors.
Proof.
  intros Hco Hload.
  pose proof (get_factors_coherent fs file_path st Hco) as Hco'.
  rewrite Hload in Hco'. split; [done|].
  destruct (_conversion_factors st) as [cached|] eqn:Hf.
  - destruct (get_factors_cached fs file_path st cached Hco Hf)
      as (st1 & Heq & _ & Hsome & _). congruence.
  - rewrite get_factors_empty in Hload by done. simpl in Hload.
    destruct (fs _); inversion Hload; subst. done.
Qed.

(** The three methods that start with a load pass on what it does. *)
Lemma convert_loaded fs value from_unit to_unit conversion_file st factors st' :
  _get_conversion_factors fs conversion_file st = (Ret factors, st') →
  convert fs value from_unit to_unit conversion_file st
  = (convert_with factors value from_unit to_unit, st').
Proof. intros Hload. unfold convert. by rewrite Hload. Qed.

Lemma convert_state fs value from_unit to_unit conversion_file st :
  (convert fs value from_unit to_unit conversion_file st).2
  = (_get_conversion_factors fs conversion_file st).2.
Proof.
  unfold convert. by destruct (_get_conversion_factors _ _ _) as [[?| |] ?].
Qed.

Lemma get_available_units_state fs conversion_file st :
  (get_available_units fs conversion_file st).2
  = (_get_conversion_factors fs conversion_file st).2.
Proof.
  unfold get_available_units.
  by destruct (_get_conversion_factors _ _ _) as [[?| |] ?].
Qed.

Lemma get_compatible_units_state fs unit conversion_file st :
  (get_compatible_units fs unit conversion_file st).2
  = (_get_conversion_factors fs conversion_file st).2.
Proof.
  unfold get_compatible_units.
  by destruct (_get_conversion_factors _ _ _) as [[?| |] ?].
Qed.

(** What a switch does, by what it finds under the new path. *)
Lemma set_conversion_file_cases fs file_path st :
  set_conversion_file fs file_path st =
    match fs file_path with
    | Json factors =>
      (Ret tt,
       {| _conversion_factors := Some factors;
          _default_conversion_file := file_path;
          lru_slot := Some (Some file_path, factors) |})
    | Missing =>
      (Raise (FileNotFoundError (not_found_message file_path)), clear_cache st)
    | NotJson =>
      (Raise (ValueError (invalid_json_message file_path)), clear_cache st)
    end.
Proof.
  unfold set_conversion_file, _get_conversion_factors, load_factors. simpl.
  by destruct (fs file_path).
Qed.

Lemma set_conversion_file_coherent fs file_path st :
  coherent (set_conversion_file fs file_path st).2.
Proof.
  rewrite set_conversion_file_cases.
  destruct (fs file_path); simpl; intros k c Hk; simpl in *; congruence.
Qed.

(** Every call keeps the two cache levels in agreement. *)
Lemma state_after_coherent fs (c : call num) st :
  coherent st → coherent (state_after fs c st).
Proof.
  intros Hco. destruct c; simpl.
  - by apply get_factors_coherent.
  - rewrite convert_state. by apply get_factors_coherent.
  - rewrite get_available_units_state. by apply get_factors_coherent.
  - rewrite get_compatible_units_state. by apply get_factors_coherent.
  - apply set_conversion_file_coherent.
Qed.

(** No call other than a switch replaces a cached table or the default. *)
Lemma state_after_cached fs (c : call num) st factors :
  is_switch c = false →
  coherent st → _conversion_factors st = Some factors →
  _conversion_factors (state_after fs c st) = Some factors
  ∧ _default_conversion_file (state_after fs c st) = _default_conversion_file st.
Proof.
  intros Hsw Hco Hf.
  assert (∀ file_path,
    _conversion_factors (_get_conversion_factors fs file_path st).2 = Some factors
    ∧ _default_conversion_file (_get_conversion_factors fs file_path st).2
      = _default_conversion_file st) as Hget.
  { intros file_path.
    destruct (get_factors_cached fs file_path st factors Hco Hf)
      as (st' & -> & _ & ? & ?). done. }
  destruct c; simpl; try discriminate;
    rewrite ?convert_state, ?get_available_units_state,
      ?get_compatible_units_state; apply Hget.
Qed.

Lemma run_coherent (calls : list (filesystem num * call num)) st :
  coherent st → coherent (run calls st).
Proof.
  revert st. induction calls as [|[fs c] calls IH]; intros st Hco; [done|].
  simpl. apply IH. by apply state_after_coherent.
Qed.

Lemma run_cached (calls : list (filesystem num * call num)) st factors :
  Forall (λ fc, is_switch fc.2 = false) calls →
  coherent st → _conversion_factors st = Some factors →
  _conversion_factors (run calls st) = Some factors
  ∧ _default_conversion_file (run calls st) = _default_conversion_file st.
Proof.
  revert st. induction calls as [|[fs c] calls IH]; intros st Hall Hco Hf; [done|].
  inversion Hall as [|? ? Hc Hrest]; subst. simpl in *.
  destruct (state_after_cached fs c st factors Hc Hco Hf) as [Hf' Hd'].
  destruct (IH (state_after fs c st) Hrest) as [? ?];
    [by apply state_after_coherent | done |].
  split; [done | congruence].
Qed.

End Loader.

(** ** The resolver, case by case *)

Section Resolver.
Context {num : Type} `{PyNumber num}.
Implicit Types (factors : table num) (value : num).

Lemma convert_with_identity factors value u :
  convert_with factors value u u = Ret (py_float value).
Proof. unfold convert_with. by case_decide. Qed.

Lemma convert_with_direct factors value a b f :
  a ≠ b → factor_of factors a b = Some f →
  convert_with factors value a b = Ret (py_mul value f).
Proof. intros Hne Hf. unfold convert_with. case_decide; [done|]. by rewrite Hf. Qed.

Lemma convert_with_reverse factors value a b f :
  a ≠ b → factor_of factors a b = None → factor_of factors b a = Some f →
  convert_with factors value a b =
    match py_truediv value f with
    | Some q => Ret q
    | None => Raise ZeroDivisionError
    end.
Proof.
  intros Hne Hab Hba. unfold convert_with. case_decide; [done|].
  by rewrite Hab, Hba.
Qed.

Lemma no_forward_path_no_entry factors a b :
  ¬ forward_path factors a b → factor_of factors a b = None.
Proof.
  intros Hno. destruct (factor_of factors a b) as [f|] eqn:Hf; [|done].
  exfalso. apply Hno, tc_once. unfold edge. rewrite Hf. eauto.
Qed.

(** Past the identity, direct and reverse checks, the result is decided by
    the search alone. *)
Lemma convert_with_search factors value a b :
  a ≠ b → factor_of factors a b = None → factor_of factors b a = None →
  convert_with factors value a b =
    match find_conversion_path factors (search_fuel factors) b a ∅ with
    | Ret (path, _) =>
      if truthy path then Ret (apply_path value (default [] path))
      else Raise (ValueError (no_path_message a b))
    | Raise e => Raise e
    | OutOfFuel => OutOfFuel
    end.
Proof.
  intros Hne Hab Hba. unfold convert_with. case_decide; [done|].
  by rewrite Hab, Hba.
Qed.

Lemma convert_with_no_path factors value a b :
  a ≠ b → factor_of factors b a = None → ¬ forward_path factors a b →
  convert_with factors value a b = Raise (ValueError (no_path_message a b)).
Proof.
  intros Hne Hba Hno.
  rewrite convert_with_search by auto using no_forward_path_no_entry.
  destruct (top_search_none factors b a Hno) as (r & V' & -> & ->). done.
Qed.

Lemma convert_with_found factors value a b :
  a ≠ b → factor_of factors a b = None → factor_of factors b a = None →
  forward_path factors a b →
  ∃ path, chain factors a b path
    ∧ convert_with factors value a b = Ret (apply_path value path).
Proof.
  intros Hne Hab Hba Hfwd. rewrite convert_with_search by done.
  destruct (top_search_complete factors b a Hfwd) as (l & path & V' & -> & Hch).
  simpl. eauto.
Qed.

(** [convert] on a loaded table always returns or raises. *)
Lemma convert_with_terminates factors value a b :
  convert_with factors value a b ≠ OutOfFuel.
Proof.
  unfold convert_with. case_decide; [done|].
  destruct (factor_of factors a b); [done|].
  destruct (factor_of factors b a); [by destruct (py_truediv _ _)|].
  destruct (top_search_returns factors b a) as (r & V' & ->).
  by destruct (truthy r).
Qed.

(** The only exceptions of the resolver: a zero divisor in the reverse
    lookup, and the exhausted search. *)
Lemma convert_with_raises factors value a b e :
  convert_with factors value a b = Raise e →
  (e = ZeroDivisionError ∧ a ≠ b ∧ factor_of factors a b = None
     ∧ ∃ f, factor_of factors b a = Some f ∧ py_truediv value f = None)
  ∨ (e = ValueError (no_path_message a b) ∧ a ≠ b
     ∧ factor_of factors b a = None ∧ ¬ forward_path factors a b).
Proof.
  unfold convert_with. case_decide as Hne; [done|].
  destruct (factor_of factors a b) as [f|] eqn:Hab; [done|].
  destruct (factor_of factors b a) as [f|] eqn:Hba.
  - destruct (py_truediv value f) eqn:Hdiv; [done|].
    intros [= <-]. left. eauto 10.
  - destruct (top_search_returns factors b a) as (r & V' & Hr). rewrite Hr.
    destruct (truthy r) eqn:Ht; [done|].
    intros [= <-]. right. repeat split; try done.
    eapply top_search_fails; eauto.
Qed.

End Resolver.

(** ** The claims *)

Section Claims.
Context {num : Type} `{PyNumber num}.
Implicit Types (factors : table num) (st : class_state num).
Implicit Types (fs : filesystem num) (value : num).

(** C1, as amended. Let the loaded table hold [a → b] with factor [f1] and
    [b → c] with factor [f2], with [a] and [c] distinct, no entry [a → c]
    and no entry [c → a]. If no unit listed before [b] under [a] has a
    forward path to [c], then [convert(value, a, c)] finds the chain
    [a → b → c] and returns [(value * f1) * f2]. *)
Theorem composition_along_first_chain fs conversion_file st factors st'
    value a b c f1 f2 (pre post : dict num) :
  _get_conversion_factors fs conversion_file st = (Ret factors, st') →
  a ≠ c →
  factor_of factors a c = None →
  factor_of factors c a = None →
  dict_get a factors = Some (pre ++ (b, f1) :: post) →
  (∀ k, k ∈ dict_keys pre → ¬ forward_path factors k c) →
  factor_of factors b c = Some f2 →
  convert fs value a c conversion_file st
  = (Ret (py_mul (py_mul value f1) f2), st').
Proof.
  intros Hload Hne Hac Hca Hrow Hdead Hbc.
  rewrite (convert_loaded _ _ _ _ _ _ _ _ Hload). f_equal.
  rewrite convert_with_search by done.
  assert (edge factors b c) as Hedge by (unfold edge; rewrite Hbc; eauto).
  assert (b ∉ dict_keys pre) as Hfresh.
  { intros Hin. apply (Hdead b Hin). by apply tc_once. }
  assert (factor_of factors a b = Some f1) as Hab.
  { unfold factor_of. rewrite Hrow. simpl.
    rewrite dict_get_app_fresh by done. simpl. by case_decide. }
  assert (b ≠ a) as Hba by congruence.
  unfold search_fuel. simpl. rewrite Hac.
  unfold neighbours. rewrite Hrow. simpl.
  rewrite dict_keys_app. simpl.
  destruct (try_intermediates_dead_ends factors c a (length factors) b Hedge
              (dict_keys pre) ({[a]} ∪ ∅) (b :: dict_keys post))
    as (V2 & Hsub & HbV2 & ->); [done| |set_solver|].
  { pose proof (sources_size factors) as Hle.
    pose proof (visiting_source_shrinks factors a ∅
                  (source_of_entry _ _ _ Hrow)) as Hlt.
    assert (size (sources factors ∖ ∅) ≤ size (sources factors))
      by (apply subseteq_size; set_solver).
    specialize (Hlt ltac:(set_solver)). lia. }
  simpl. case_decide; [done|].
  destruct factors as [|entry factors']; [discriminate|].
  simpl length. cbn [find_conversion_path]. rewrite Hbc. simpl.
  rewrite Hab. reflexivity.
Qed.

(** C2, as amended. Every [convert] call starts by loading the table. When
    that load returns, [convert(value, u, u)] returns [float(value)]
    whatever the table holds, also for a unit absent from it: nothing is
    looked up in the table. When the load raises, [convert] raises the same
    error. With a table cached the load returns, whatever the files hold. *)
Theorem identity_after_load fs conversion_file st value u :
  (∀ factors st',
     _get_conversion_factors fs conversion_file st = (Ret factors, st') →
     convert fs value u u conversion_file st = (Ret (py_float value), st'))
  ∧ (∀ e st',
     _get_conversion_factors fs conversion_file st = (Raise e, st') →
     convert fs value u u conversion_file st = (Raise e, st'))
  ∧ (∀ factors,
     coherent st → _conversion_factors st = Some factors →
     (convert fs value u u conversion_file st).1 = Ret (py_float value)).
Proof.
  split; [|split].
  - intros factors st' Hload.
    rewrite (convert_loaded _ _ _ _ _ _ _ _ Hload).
    by rewrite convert_with_identity.
  - intros e st' Hload. unfold convert. by rewrite Hload.
  - intros factors Hco Hf.
    destruct (get_factors_cached fs conversion_file st factors Hco Hf)
      as (st' & Hload & _).
    rewrite (convert_loaded _ _ _ _ _ _ _ _ Hload).
    by rewrite convert_with_identity.
Qed.

(** C3. The search follows forward entries only: every path it returns is
    a chain of table entries, each taken in its stored direction. So for
    distinct units with no entry [to_unit → from_unit] for the top-level
    reverse lookup and no forward path from [from_unit] to [to_unit],
    [convert] fails with the no-path error, however the two units are
    linked against the direction of the entries. *)
Theorem reverse_edges_not_searched fs conversion_file st factors st'
    value from_unit to_unit :
  _get_conversion_factors fs conversion_file st = (Ret factors, st') →
  from_unit ≠ to_unit →
  factor_of factors to_unit from_unit = None →
  ¬ forward_path factors from_unit to_unit →
  convert fs value from_unit to_unit conversion_file st
  = (Raise (ValueError (no_path_message from_unit to_unit)), st')
  ∧ ∀ fuel current V r V',
      find_conversion_path factors fuel to_unit current V = Ret (r, V') →
      truthy r = true → chain factors current to_unit (default [] r).
Proof.
  intros Hload Hne Hrev Hno. split.
  - rewrite (convert_loaded _ _ _ _ _ _ _ _ Hload).
    by rewrite convert_with_no_path.
  - intros fuel current V r V'. apply find_conversion_path_sound.
Qed.

(** C5, as amended. Let the loaded table hold [a → b] with factor [f], for
    distinct [a] and [b]. Then [convert(value, a, b)] returns [value * f];
    and when the table has no entry [b → a] (as when it has no entry under
    [b] at all), [convert(value, b, a)] returns [value / f]. *)
Theorem direct_and_reverse_lookup fs conversion_file st factors st'
    value a b f :
  _get_conversion_factors fs conversion_file st = (Ret factors, st') →
  a ≠ b →
  factor_of factors a b = Some f →
  convert fs value a b conversion_file st = (Ret (py_mul value f), st')
  ∧ (∀ q, factor_of factors b a = None → py_truediv value f = Some q →
       convert fs value b a conversion_file st = (Ret q, st'))
  ∧ (dict_get b factors = None → factor_of factors b a = None).
Proof.
  intros Hload Hne Hab. split; [|split].
  - rewrite (convert_loaded _ _ _ _ _ _ _ _ Hload).
    by rewrite (convert_with_direct _ _ _ _ f).
  - intros q Hba Hdiv. rewrite (convert_loaded _ _ _ _ _ _ _ _ Hload).
    rewrite (convert_with_reverse _ _ _ _ f) by done. by rewrite Hdiv.
  - intros Hb. unfold factor_of. by rewrite Hb.
Qed.

(** C7. On a loaded table, [convert] raises a [ValueError] exactly when
    the units are distinct, the table has no entry [to_unit → from_unit],
    and no forward path (so no direct entry either) leads from [from_unit]
    to [to_unit]; the message is then the no-path message, which names both
    units. The condition is one on the table and the two units alone. *)
Theorem no_conversion_path_exactly fs conversion_file st factors st'
    value from_unit to_unit :
  _get_conversion_factors fs conversion_file st = (Ret factors, st') →
  (∀ msg,
     convert fs value from_unit to_unit conversion_file st
     = (Raise (ValueError msg), st')
     ↔ msg = no_path_message from_unit to_unit
       ∧ from_unit ≠ to_unit
       ∧ factor_of factors to_unit from_unit = None
       ∧ ¬ forward_path factors from_unit to_unit)
  ∧ no_path_message from_unit to_unit
    = "No conversion path found from '" +:+ from_unit +:+ "' to '"
      +:+ to_unit +:+ "'".
Proof.
  intros Hload. split; [|reflexivity].
  intros msg. rewrite (convert_loaded _ _ _ _ _ _ _ _ Hload). split.
  - intros [= Hraise].
    apply convert_with_raises in Hraise
      as [(Habs & _) | (Hmsg & Hne & Hrev & Hno)]; [discriminate|].
    inversion Hmsg; subst. done.
  - intros (-> & Hne & Hrev & Hno). by rewrite convert_with_no_path.
Qed.

(** C4. Once a load has returned a table, every later load without an
    argument returns that table, after any sequence of calls that are not
    switches and whatever the files hold by then; the table stays in the
    slot. After a switch to a file holding another table, it is that table
    which loads without an argument return. *)
Theorem loader_single_slot fs0 file0 st0 factors st
    (calls : list (filesystem num * call num)) :
  coherent st0 →
  _get_conversion_factors fs0 file0 st0 = (Ret factors, st) →
  Forall (λ fc, is_switch fc.2 = false) calls →
  (∀ fs,
     (_get_conversion_factors fs None (run calls st)).1 = Ret factors
     ∧ _conversion_factors (_get_conversion_factors fs None (run calls st)).2
       = Some factors)
  ∧ (∀ fs1 file1 factors1 (calls' : list (filesystem num * call num)),
       fs1 file1 = Json factors1 →
       Forall (λ fc, is_switch fc.2 = false) calls' →
       ∀ fs,
         (_get_conversion_factors fs None
            (run calls' (set_conversion_file fs1 file1 (run calls st)).2)).1
         = Ret factors1).
Proof.
  intros Hco0 Hload Hcalls.
  destruct (get_factors_loaded _ _ _ _ _ Hco0 Hload) as [Hco Hf].
  split.
  - intros fs.
    destruct (run_cached calls st factors Hcalls Hco Hf) as [Hf' _].
    destruct (get_factors_cached fs None (run calls st) factors)
      as (st2 & -> & _ & Hf2 & _); [by apply run_coherent | done | done].
  - intros fs1 file1 factors1 calls' Hfile Hcalls' fs.
    pose proof (set_conversion_file_coherent fs1 file1 (run calls st)) as Hco1.
    assert (_conversion_factors (set_conversion_file fs1 file1 (run calls st)).2
            = Some factors1) as Hf1.
    { rewrite set_conversion_file_cases, Hfile. done. }
    destruct (run_cached calls' _ factors1 Hcalls' Hco1 Hf1) as [Hf' _].
    destruct (get_factors_cached fs None
                (run calls' (set_conversion_file fs1 file1 (run calls st)).2)
                factors1)
      as (st2 & -> & _); [by apply run_coherent | done | done].
Qed.


(** C9. With a table cached, the [conversion_file] argument of [convert],
    [get_available_units] and [get_compatible_units] changes nothing: each
    works on the cached table whatever the argument and whatever the files
    hold. With nothing cached, a load with an explicit path reads the file
    under that path. *)
Theorem per_call_file_ignored_when_cached fs (file_path : string) st :
  coherent st →
  (∀ factors,
     _conversion_factors st = Some factors →
     (∀ value a b,
        (convert fs value a b (Some file_path) st).1
        = convert_with factors value a b)
     ∧ (get_available_units fs (Some file_path) st).1 = Ret (dict_keys factors)
     ∧ (∀ unit,
        (get_compatible_units fs unit (Some file_path) st).1
        = Ret (compatible_units factors unit)))
  ∧ (_conversion_factors st = None →
     (_get_conversion_factors fs (Some file_path) st).1 =
       match fs file_path with
       | Json factors => Ret factors
       | Missing => Raise (FileNotFoundError (not_found_message file_path))
       | NotJson => Raise (ValueError (invalid_json_message file_path))
       end).
Proof.
  intros Hco. split.
  - intros factors Hf.
    destruct (get_factors_cached fs (Some file_path) st factors Hco Hf)
      as (st' & Hload & _).
    unfold convert, get_available_units, get_compatible_units.
    rewrite Hload. done.
  - intros Hnone. rewrite get_factors_empty by done. simpl.
    by destruct (fs file_path).
Qed.

(** C10. When a switch raises, the state it leaves has an empty cache and
    the default path it had before; the next load without an argument reads
    the file under that earlier default. *)
Theorem failed_switch_keeps_default fs file_path st e st' :
  set_conversion_file fs file_path st = (Raise e, st') →
  st' = clear_cache st
  ∧ _conversion_factors st' = None
  ∧ lru_slot st' = None
  ∧ _default_conversion_file st' = _default_conversion_file st
  ∧ ∀ fs',
      (_get_conversion_factors fs' None st').1 =
        match fs' (_default_conversion_file st) with
        | Json factors => Ret factors
        | Missing =>
          Raise (FileNotFoundError
                   (not_found_message (_default_conversion_file st)))
        | NotJson =>
          Raise (ValueError
                   (invalid_json_message (_default_conversion_file st)))
        end.
Proof.
  rewrite set_conversion_file_cases.
  assert (∀ fs',
    (_get_conversion_factors fs' None (clear_cache st)).1 =
      match fs' (_default_conversion_file st) with
      | Json factors => Ret factors
      | Missing =>
        Raise (FileNotFoundError
                 (not_found_message (_default_conversion_file st)))
      | NotJson =>
        Raise (ValueError
                 (invalid_json_message (_default_conversion_file st)))
      end) as Hnext.
  { intros fs'. unfold _get_conversion_factors, load_factors. simpl.
    by destruct (fs' _). }
  destruct (fs file_path); intros [= <- <-]; done.
Qed.

End Claims.

(** ** The claims on concrete tables *)

(** Two binary64 values that [=?] tells apart are not equal. *)
Lemma float_neq (x y : float) : (x =? y)%float = false → (y =? y)%float = true → x ≠ y.
Proof. intros Hxy Hyy ->. congruence. Qed.

Lemma Ret_float_neq (x y : float) :
  (x =? y)%float = false → (y =? y)%float = true → Ret x ≠ Ret y.
Proof. intros Hxy Hyy [= E]. by apply (float_neq x y). Qed.

(** On the scenario table, [convert(2, "lb", "g")] is [2 * 16 * 28.35],
    the binary64 value of [907.2]. *)
Lemma composition_along_first_chain_witness :
  convert (one_file "conversions.json" scenario_table)
    2%float "lb" "g" None (initial_state "conversions.json")
  = (Ret (2 * 16 * 28.35)%float, loaded_state scenario_table)
  ∧ (2 * 16 * 28.35 =? 907.2)%float = true.
Proof.
  split; [|reflexivity].
  refine (composition_along_first_chain
            (one_file "conversions.json" scenario_table) None
            (initial_state "conversions.json") scenario_table _
            2%float "lb" "oz" "g" 16%float 28.35%float [] [] _ _ _ _ _ _ _);
    try reflexivity; try discriminate.
  intros k Hk. inversion Hk.
Defined.

(** C1 as stated fails, in three ways. Each table holds [a → b] and
    [b → c] and no entry [a → c]. In the first the search takes the chain
    through [d], listed first under [a]: [convert(1, "a", "c")] is
    [1 * 2 * 5], not [1 * 3 * 7]. In the second the entry [c → a] is found
    by the reverse lookup before any search: the result is [1 / 10], not
    [1 * 2 * 3]. In the third [c] is [a] itself and the identity check
    returns [1]. *)
Lemma composition_counterexample :
  (factor_of two_chains_table "a" "b" = Some 3%float
   ∧ factor_of two_chains_table "b" "c" = Some 7%float
   ∧ factor_of two_chains_table "a" "c" = None
   ∧ (convert (one_file "conversions.json" two_chains_table)
        1%float "a" "c" None (initial_state "conversions.json")).1
     = Ret (1 * 2 * 5)%float
   ∧ (convert (one_file "conversions.json" two_chains_table)
        1%float "a" "c" None (initial_state "conversions.json")).1
     ≠ Ret (1 * 3 * 7)%float)
  ∧ (factor_of way_back_table "a" "b" = Some 2%float
     ∧ factor_of way_back_table "b" "c" = Some 3%float
     ∧ factor_of way_back_table "a" "c" = None
     ∧ (convert (one_file "conversions.json" way_back_table)
          1%float "a" "c" None (initial_state "conversions.json")).1
       = Ret (1 / 10)%float
     ∧ (convert (one_file "conversions.json" way_back_table)
          1%float "a" "c" None (initial_state "conversions.json")).1
       ≠ Ret (1 * 2 * 3)%float)
  ∧ (factor_of both_ways_table "a" "b" = Some 2%float
     ∧ factor_of both_ways_table "b" "a" = Some 3%float
     ∧ factor_of both_ways_table "a" "a" = None
     ∧ (convert (one_file "conversions.json" both_ways_table)
          1%float "a" "a" None (initial_state "conversions.json")).1
       = Ret 1%float
     ∧ (convert (one_file "conversions.json" both_ways_table)
          1%float "a" "a" None (initial_state "conversions.json")).1
       ≠ Ret (1 * 2 * 3)%float).
Proof.
  repeat split; try reflexivity; vm_compute; by apply Ret_float_neq.
Qed.

Lemma loaded_state_coherent (factors : table float) :
  coherent (loaded_state factors).
Proof. intros key cached [= <- <-]. reflexivity. Qed.

Lemma against_the_grain_no_forward_path :
  ¬ forward_path against_the_grain_table "a" "c".
Proof. by eapply (top_search_fails _ _ _ None). Qed.

Lemma empty_table_no_forward_path :
  ¬ forward_path ([] : table float) "x" "y".
Proof. by eapply (top_search_fails _ _ _ None). Qed.

(** C2 as stated fails: with nothing cached and no file to load,
    [convert(1, "cup", "cup")] raises [FileNotFoundError]; the load comes
    before the comparison of the two units. *)
Lemma identity_counterexample :
  convert no_files 1%float "cup" "cup" None (initial_state "conversions.json")
  = (Raise (FileNotFoundError "Conversion file not found: conversions.json"),
     initial_state "conversions.json")
  ∧ (convert no_files 1%float "cup" "cup" None
       (initial_state "conversions.json")).1
    ≠ Ret (py_float 1%float).
Proof. split; [reflexivity | discriminate]. Qed.

(** A unit absent from the loaded table converts to itself; with no file
    to load the same call raises. *)
Lemma identity_after_load_witness :
  convert (one_file "conversions.json" scenario_table)
    5%float "furlong" "furlong" None (initial_state "conversions.json")
  = (Ret 5%float, loaded_state scenario_table)
  ∧ convert no_files 5%float "furlong" "furlong" None
      (initial_state "conversions.json")
    = (Raise (FileNotFoundError "Conversion file not found: conversions.json"),
       initial_state "conversions.json")
  ∧ (convert no_files 5%float "furlong" "furlong" (Some "other.json")
       (loaded_state scenario_table)).1
    = Ret 5%float.
Proof.
  split; [|split].
  - refine (proj1 (identity_after_load _ None _ 5%float "furlong")
              scenario_table _ _).
    reflexivity.
  - refine (proj1 (proj2 (identity_after_load no_files None _ 5%float "furlong"))
              _ _ _).
    reflexivity.
  - refine (proj2 (proj2 (identity_after_load no_files (Some "other.json")
                            (loaded_state scenario_table) 5%float "furlong"))
              scenario_table _ _).
    + apply loaded_state_coherent.
    + reflexivity.
Defined.

(** [a] and [c] are linked through [b], against the direction of the entry
    [c → b]; [convert(1, "a", "c")] finds no path. *)
Lemma reverse_edges_not_searched_witness :
  edge against_the_grain_table "a" "b"
  ∧ edge against_the_grain_table "c" "b"
  ∧ convert (one_file "conversions.json" against_the_grain_table)
      1%float "a" "c" None (initial_state "conversions.json")
    = (Raise (ValueError "No conversion path found from 'a' to 'c'"),
       loaded_state against_the_grain_table).
Proof.
  split; [by eexists|]. split; [by eexists|].
  refine (proj1 (reverse_edges_not_searched
                   (one_file "conversions.json" against_the_grain_table) None
                   (initial_state "conversions.json") against_the_grain_table
                   _ 1%float "a" "c" _ _ _ _)).
  - reflexivity.
  - discriminate.
  - reflexivity.
  - exact against_the_grain_no_forward_path.
Defined.

(** C5 as stated fails, twice: with both directions stored the direct
    entry [b → a] is taken, not the reciprocal of [a → b]; and a self-loop
    [a → a] is never read, the identity check comes first. *)
Lemma direct_and_reverse_counterexample :
  factor_of both_ways_table "a" "b" = Some 2%float
  ∧ (convert (one_file "conversions.json" both_ways_table)
       1%float "b" "a" None (initial_state "conversions.json")).1
    = Ret (1 * 3)%float
  ∧ (convert (one_file "conversions.json" both_ways_table)
       1%float "b" "a" None (initial_state "conversions.json")).1
    ≠ Ret (1 / 2)%float
  ∧ factor_of self_loop_table "a" "a" = Some 2%float
  ∧ (convert (one_file "conversions.json" self_loop_table)
       1%float "a" "a" None (initial_state "conversions.json")).1
    = Ret 1%float
  ∧ (convert (one_file "conversions.json" self_loop_table)
       1%float "a" "a" None (initial_state "conversions.json")).1
    ≠ Ret 2%float.
Proof.
  repeat split; try reflexivity; vm_compute; by apply Ret_float_neq.
Qed.

(** [cup → ml] is the only entry: [ml] has no entry of its own, and
    [convert(1, "ml", "cup")] divides by the stored factor. *)
Lemma direct_and_reverse_lookup_witness :
  convert (one_file "conversions.json" other_table)
    1%float "cup" "ml" None (initial_state "conversions.json")
  = (Ret (1 * 236.59)%float, loaded_state other_table)
  ∧ convert (one_file "conversions.json" other_table)
      1%float "ml" "cup" None (initial_state "conversions.json")
    = (Ret (1 / 236.59)%float, loaded_state other_table)
  ∧ dict_get "ml" other_table = None.
Proof.
  destruct (direct_and_reverse_lookup
              (one_file "conversions.json" other_table) None
              (initial_state "conversions.json") other_table
              (loaded_state other_table) 1%float "cup" "ml" 236.59%float)
    as (Hdirect & Hreverse & Hentry).
  - reflexivity.
  - discriminate.
  - reflexivity.
  - split; [exact Hdirect|]. split; [|reflexivity].
    apply Hreverse; reflexivity.
Defined.

(** On an empty table [convert(1, "x", "y")] raises the error that names
    ["x"] and ["y"]. *)
Lemma no_conversion_path_exactly_witness :
  convert (one_file "conversions.json" []) 1%float "x" "y" None
    (initial_state "conversions.json")
  = (Raise (ValueError "No conversion path found from 'x' to 'y'"),
     loaded_state []).
Proof.
  apply (proj1 (no_conversion_path_exactly
                  (one_file "conversions.json" []) None
                  (initial_state "conversions.json") [] (loaded_state [])
                  1%float "x" "y" eq_refl)).
  split; [reflexivity|]. split; [discriminate|]. split; [reflexivity|].
  exact empty_table_no_forward_path.
Defined.

(** The first load is given a file of its own; later loads without an
    argument return that file's table and not the default file's, also
    when no file can be read any more. After a switch they return the
    table of the file switched to. *)
Lemma loader_single_slot_witness :
  (_get_conversion_factors no_files None
     (run later_calls
        (_get_conversion_factors (one_file "other.json" other_table)
           (Some "other.json") (initial_state "conversions.json")).2)).1
  = Ret other_table
  ∧ (_get_conversion_factors no_files None
       (run later_calls
          (set_conversion_file (one_file "scenario.json" scenario_table)
             "scenario.json"
             (run later_calls
                (_get_conversion_factors (one_file "other.json" other_table)
                   (Some "other.json")
                   (initial_state "conversions.json")).2)).2)).1
    = Ret scenario_table.
Proof.
  destruct (loader_single_slot
              (one_file "other.json" other_table) (Some "other.json")
              (initial_state "conversions.json") other_table
              (_get_conversion_factors (one_file "other.json" other_table)
                 (Some "other.json") (initial_state "conversions.json")).2
              later_calls)
    as [Hsame Hswitched].
  - apply coherent_initial.
  - reflexivity.
  - repeat constructor.
  - split.
    + exact (proj1 (Hsame no_files)).
    + refine (Hswitched (one_file "scenario.json" scenario_table)
                "scenario.json" scenario_table later_calls eq_refl _ no_files).
      repeat constructor.
Defined.



(** With the scenario table cached, a call naming another file converts
    on the scenario table all the same; with nothing cached the named file
    is read. *)
Lemma per_call_file_ignored_when_cached_witness :
  (convert (one_file "other.json" other_table) 2%float "lb" "g"
     (Some "other.json") (loaded_state scenario_table)).1
  = Ret (2 * 16 * 28.35)%float
  ∧ (get_available_units (one_file "other.json" other_table)
       (Some "other.json") (loaded_state scenario_table)).1
    = Ret ["lb"; "oz"]
  ∧ (_get_conversion_factors (one_file "other.json" other_table)
       (Some "other.json") (initial_state "conversions.json")).1
    = Ret other_table.
Proof.
  split; [|split].
  - destruct (proj1 (per_call_file_ignored_when_cached
                       (one_file "other.json" other_table) "other.json"
                       (loaded_state scenario_table)
                       (loaded_state_coherent scenario_table))
                scenario_table eq_refl)
      as (Hconvert & _ & _).
    rewrite Hconvert. reflexivity.
  - destruct (proj1 (per_call_file_ignored_when_cached
                       (one_file "other.json" other_table) "other.json"
                       (loaded_state scenario_table)
                       (loaded_state_coherent scenario_table))
                scenario_table eq_refl)
      as (_ & Hunits & _).
    exact Hunits.
  - exact (proj2 (per_call_file_ignored_when_cached
                    (one_file "other.json" other_table) "other.json"
                    (initial_state "conversions.json")
                    (coherent_initial "conversions.json"))
             eq_refl).
Defined.

(** A switch to a path with no file raises; the load that follows reads
    the default file of before the switch. *)
Lemma failed_switch_keeps_default_witness :
  set_conversion_file (one_file "conversions.json" scenario_table) "gone.json"
    (loaded_state other_table)
  = (Raise (FileNotFoundError "Conversion file not found: gone.json"),
     initial_state "conversions.json")
  ∧ (_get_conversion_factors (one_file "conversions.json" scenario_table) None
       (initial_state "conversions.json")).1
    = Ret scenario_table.
Proof.
  split; [reflexivity|].
  destruct (failed_switch_keeps_default
              (one_file "conversions.json" scenario_table) "gone.json"
              (loaded_state other_table)
              (FileNotFoundError "Conversion file not found: gone.json")
              (initial_state "conversions.json") eq_refl)
    as (_ & _ & _ & _ & Hnext).
  exact (Hnext (one_file "conversions.json" scenario_table)).
Defined.

(** ** Further properties of the search *)

Section SearchShape.
Context {num : Type} `{PyNumber num}.
Implicit Types (factors : table num) (V : gset string).
Implicit Types (r : option (list (leg num))).

(** A search answers [None] or a non-empty path, never [[]]. *)
Lemma try_intermediates_answer search factors current units V r V' :
  try_intermediates search factors current units V = Ret (r, V') →
  r = None ∨ truthy r = true.
Proof.
  revert V. induction units as [|u units IH]; simpl; intros V Hr.
  - inversion Hr. by left.
  - case_decide; [eauto|].
    destruct (search u V) as [[p V1]| |]; try done.
    destruct (truthy p); [|eauto].
    destruct (factor_of factors current u); inversion Hr. by right.
Qed.

Lemma find_conversion_path_answer factors target fuel current V r V' :
  find_conversion_path factors fuel target current V = Ret (r, V') →
  r = None ∨ truthy r = true.
Proof.
  destruct fuel as [|fuel]; simpl; [done|].
  destruct (factor_of factors current target).
  - intros [= <- <-]. by right.
  - apply try_intermediates_answer.
Qed.

Lemma chain_starts_sources factors u v path :
  chain factors u v path → ∀ x, x ∈ leg_starts path → x ∈ sources factors.
Proof.
  assert (∀ a b f, factor_of factors a b = Some f → a ∈ sources factors) as Hsrc.
  { intros a b f Hf. unfold factor_of in Hf.
    destruct (dict_get a factors) as [row|] eqn:Hrow; [|done].
    by eapply source_of_entry. }
  induction 1 as [u v f Hf | u w v f path Hf _ IH]; intros x Hx.
  - apply list_elem_of_singleton in Hx as ->. eauto.
  - apply elem_of_cons in Hx as [->|Hx]; eauto.
Qed.

(** The legs of a found path start from units that the search visited
    for the first time, each once. *)
Lemma try_intermediates_fresh_starts search factors current :
  (∀ u V r V', search u V = Ret (r, V') → {[u]} ∪ V ⊆ V') →
  (∀ u V r V', u ∉ V → search u V = Ret (r, V') →
     NoDup (leg_starts (default [] r))
     ∧ ∀ x, x ∈ leg_starts (default [] r) → x ∈ V' ∧ x ∉ V) →
  ∀ units V r V',
    current ∈ V →
    try_intermediates search factors current units V = Ret (r, V') →
    NoDup (leg_starts (default [] r))
    ∧ ∀ x, x ∈ leg_starts (default [] r) → x = current ∨ (x ∈ V' ∧ x ∉ V).
Proof.
  intros Hgrow Hs units.
  induction units as [|u units IH]; simpl; intros V r V' Hc Hr.
  - inversion Hr; subst. simpl. split; [constructor | intros x Hx; inversion Hx].
  - case_decide as Hu; [eauto|].
    destruct (search u V) as [[p V1]| |] eqn:Hsu; try done.
    destruct (Hs _ _ _ _ Hu Hsu) as [Hnd Hin].
    apply Hgrow in Hsu.
    destruct (truthy p).
    + destruct (factor_of factors current u); inversion Hr; subst. simpl.
      split.
      * apply NoDup_cons. split; [|done]. intros Hx. apply Hin in Hx. set_solver.
      * intros x Hx. apply elem_of_cons in Hx as [->|Hx]; [by left|].
        right. by apply Hin.
    + destruct (IH V1 r V') as [Hnd' Hin']; [set_solver | done |].
      split; [done|]. intros x Hx.
      destruct (Hin' x Hx) as [?|[? ?]]; [by left|]. right. set_solver.
Qed.

Lemma find_conversion_path_fresh_starts factors target fuel :
  ∀ current V r V',
    current ∉ V →
    find_conversion_path factors fuel target current V = Ret (r, V') →
    NoDup (leg_starts (default [] r))
    ∧ ∀ x, x ∈ leg_starts (default [] r) → x ∈ V' ∧ x ∉ V.
Proof.
  induction fuel as [|fuel IH]; simpl; intros current V r V' Hc Hr; [done|].
  destruct (factor_of factors current target).
  - inversion Hr; subst. simpl. split; [apply NoDup_singleton|].
    intros x Hx. apply list_elem_of_singleton in Hx as ->. set_solver.
  - pose proof Hr as Hg.
    eapply try_intermediates_grows in Hg; [|apply find_conversion_path_grows].
    eapply try_intermediates_fresh_starts in Hr as [Hnd Hin];
      [ | apply find_conversion_path_grows | exact IH | set_solver ].
    split; [done|]. intros x Hx.
    destruct (Hin x Hx) as [->|[? ?]]; set_solver.
Qed.

(** No leg of a found path starts from the target, unless the search
    itself started there. *)
Lemma try_intermediates_starts_not_target search factors target current :
  (∀ u V r V', search u V = Ret (r, V') →
     ∀ x, x ∈ leg_starts (default [] r) → x = u ∨ x ≠ target) →
  factor_of factors current target = None →
  ∀ units V r V',
    try_intermediates search factors current units V = Ret (r, V') →
    ∀ x, x ∈ leg_starts (default [] r) → x = current ∨ x ≠ target.
Proof.
  intros Hs Hnone units.
  induction units as [|u units IH]; simpl; intros V r V' Hr x Hx.
  - inversion Hr; subst. inversion Hx.
  - case_decide; [eauto|].
    destruct (search u V) as [[p V1]| |] eqn:Hsu; try done.
    destruct (truthy p); [|eauto].
    destruct (factor_of factors current u) as [f|] eqn:Hf; inversion Hr; subst.
    simpl in Hx. apply elem_of_cons in Hx as [->|Hx]; [by left|].
    right. destruct (Hs _ _ _ _ Hsu x Hx) as [->|?]; [|done]. congruence.
Qed.

Lemma find_conversion_path_starts_not_target factors target fuel :
  ∀ current V r V',
    find_conversion_path factors fuel target current V = Ret (r, V') →
    ∀ x, x ∈ leg_starts (default [] r) → x = current ∨ x ≠ target.
Proof.
  induction fuel as [|fuel IH]; simpl; intros current V r V' Hr x Hx; [done|].
  destruct (factor_of factors current target) eqn:Hf.
  - inversion Hr; subst. simpl in Hx.
    apply list_elem_of_singleton in Hx as ->. by left.
  - eapply try_intermediates_starts_not_target; eauto.
Qed.

End SearchShape.

(** ** Further properties of the converter *)

Lemma dict_get_elem_of {V : Type} (k : string) (v : V) (d : dict V) :
  dict_get k d = Some v → (k, v) ∈ d.
Proof.
  induction d as [|[k' v'] d IH]; simpl; [done|].
  case_decide; subst.
  - intros [= ->]. left.
  - intros Hget. right. by apply IH.
Qed.

(** In a dict, whose keys are distinct, an entry is what indexing gives. *)
Lemma elem_of_dict_get {V : Type} (k : string) (v : V) (d : dict V) :
  NoDup (dict_keys d) → (k, v) ∈ d → dict_get k d = Some v.
Proof.
  unfold dict_keys. induction d as [|[k' v'] d IH]; simpl; intros Hnd Hin.
  - inversion Hin.
  - apply NoDup_cons in Hnd as [Hk' Hnd].
    apply elem_of_cons in Hin as [[= -> ->]|Hin].
    + by case_decide.
    + case_decide; subst; [|by apply IH].
      exfalso. apply Hk'. apply list_elem_of_fmap. by exists (k', v).
Qed.

Section ConverterShape.
Context {num : Type} `{PyNumber num}.
Implicit Types (factors : table num) (st : class_state num).
Implicit Types (fs : filesystem num) (value : num).

Lemma compatible_units_fold factors unit (acc : gset string) u :
  u ∈ fold_left
        (λ (compatible : gset string) (entry : string * dict num),
           match dict_get unit entry.2 with
           | Some _ => {[entry.1]} ∪ compatible
           | None => compatible
           end)
        factors acc
  ↔ u ∈ acc ∨ ∃ row, (u, row) ∈ factors ∧ is_Some (dict_get unit row).
Proof.
  revert acc. induction factors as [|[k row] factors IH]; intros acc; simpl.
  - split; [by left|]. intros [?|(row & Hin & _)]; [done | inversion Hin].
  - rewrite IH. split.
    + intros [Hacc|(row' & Hin & Hsome)].
      * destruct (dict_get unit row) as [f|] eqn:Hrow; [|by left].
        apply elem_of_union in Hacc as [Hk|?]; [|by left].
        apply elem_of_singleton in Hk as ->. right. exists row.
        split; [left | rewrite Hrow; eauto].
      * right. exists row'. split; [by right | done].
    + intros [Hacc|(row' & Hin & Hsome)].
      * left. destruct (dict_get unit row); set_solver.
      * apply elem_of_cons in Hin as [[= -> ->]|Hin].
        -- left. destruct Hsome as [f ->]. set_solver.
        -- right. eauto.
Qed.

Lemma compatible_units_one_hop factors unit u :
  NoDup (dict_keys factors) →
  u ∈ compatible_units factors unit
  ↔ edge factors unit u ∨ edge factors u unit.
Proof.
  intros Hnd. unfold compatible_units. rewrite compatible_units_fold.
  unfold edge, factor_of. split.
  - intros [Hfwd|(row & Hin & Hsome)].
    + left. destruct (dict_get unit factors) as [row|]; [|set_solver].
      simpl. apply dict_get_is_Some. set_solver.
    + right. by rewrite (elem_of_dict_get _ _ _ Hnd Hin).
  - intros [Hfwd|Hback].
    + left. destruct (dict_get unit factors) as [row|]; simpl in *.
      * apply elem_of_list_to_set. by apply dict_get_is_Some.
      * by destruct Hfwd.
    + right. destruct (dict_get u factors) as [row|] eqn:Hrow; simpl in *.
      * exists row. split; [by apply dict_get_elem_of | done].
      * by destruct Hback.
Qed.

(** X1. [get_compatible_units(unit)] on a loaded table returns exactly the
    units one table entry away from [unit], in either direction: the
    targets listed under [unit], and the keys whose entry lists [unit]. *)
Theorem get_compatible_units_one_hop fs conversion_file st factors st' unit :
  _get_conversion_factors fs conversion_file st = (Ret factors, st') →
  NoDup (dict_keys factors) →
  ∃ units,
    get_compatible_units fs unit conversion_file st = (Ret units, st')
    ∧ ∀ u, u ∈ units ↔ edge factors unit u ∨ edge factors u unit.
Proof.
  intros Hload Hnd. exists (compatible_units factors unit). split.
  - unfold get_compatible_units. by rewrite Hload.
  - intros u. by apply compatible_units_one_hop.
Qed.

(** X2. Compatibility is symmetric: [u] is listed for [unit] exactly when
    [unit] is listed for [u]. *)
Theorem compatible_units_symmetric factors unit u :
  NoDup (dict_keys factors) →
  u ∈ compatible_units factors unit ↔ unit ∈ compatible_units factors u.
Proof.
  intros Hnd. rewrite !compatible_units_one_hop by done. tauto.
Qed.

(** X3. A unit that [get_compatible_units(unit)] lists converts from and
    to [unit] without any search: [convert] never answers with the
    no-path error for it, in either direction. *)
Theorem compatible_units_convert factors unit u value msg :
  NoDup (dict_keys factors) →
  u ∈ compatible_units factors unit →
  convert_with factors value unit u ≠ Raise (ValueError msg)
  ∧ convert_with factors value u unit ≠ Raise (ValueError msg).
Proof.
  intros Hnd Hin. apply compatible_units_one_hop in Hin; [|done].
  assert (∀ a b, edge factors a b ∨ edge factors b a →
            convert_with factors value a b ≠ Raise (ValueError msg)) as Hone.
  { intros a b Hab Hraise.
    apply convert_with_raises in Hraise
      as [(Habs & _) | (_ & _ & Hrev & Hno)]; [discriminate|].
    destruct Hab as [Hab|[f Hf]]; [|congruence].
    apply Hno. by apply tc_once. }
  split; apply Hone; tauto.
Qed.

(** X4. [get_available_units()] returns the table's keys. From a unit
    that is not among them, [convert] to another unit works only through
    the reverse lookup: with no entry [to_unit → from_unit] it raises the
    no-path error. *)
Theorem convert_from_unlisted_unit fs conversion_file st factors st'
    value from_unit to_unit :
  _get_conversion_factors fs conversion_file st = (Ret factors, st') →
  get_available_units fs conversion_file st = (Ret (dict_keys factors), st')
  ∧ (from_unit ∉ dict_keys factors →
     from_unit ≠ to_unit →
     factor_of factors to_unit from_unit = None →
     convert fs value from_unit to_unit conversion_file st
     = (Raise (ValueError (no_path_message from_unit to_unit)), st')).
Proof.
  intros Hload. split.
  - unfold get_available_units. by rewrite Hload.
  - intros Hkey Hne Hrev.
    rewrite (convert_loaded _ _ _ _ _ _ _ _ Hload).
    rewrite convert_with_no_path; [done..|].
    intros Hpath. unfold forward_path in Hpath.
    assert (∀ x, ¬ edge factors from_unit x) as Hnone.
    { intros x [f Hf]. unfold factor_of in Hf.
      apply dict_get_None in Hkey. by rewrite Hkey in Hf. }
    destruct Hpath as [x y Hxy | x y z Hxy _]; by apply Hnone in Hxy.
Qed.

(** X5. When a forward path leads from [a] to a different unit [b], and
    the reverse lookup does not come first (there is an entry [a → b], or
    none [b → a]), [convert] multiplies the value by the factors along one
    chain of table entries from [a] to [b], the same chain for every
    value. *)
Theorem convert_along_forward_chain factors a b :
  a ≠ b →
  forward_path factors a b →
  (factor_of factors a b = None → factor_of factors b a = None) →
  ∃ path,
    chain factors a b path
    ∧ ∀ value, convert_with factors value a b = Ret (apply_path value path).
Proof.
  intros Hne Hfwd Hrev.
  destruct (factor_of factors a b) as [f|] eqn:Hab.
  - exists [(a, b, f)]. split; [by apply chain_last|].
    intros value. by rewrite (convert_with_direct _ _ _ _ f).
  - specialize (Hrev eq_refl).
    destruct (top_search_complete factors b a Hfwd) as (l & path & V' & Hr & Hch).
    exists (l :: path). split; [done|].
    intros value. rewrite convert_with_search by done. by rewrite Hr.
Qed.

(** X6. A path that the search returns is a simple path: it is a chain of
    table entries from the start to the target, no two legs start from the
    same unit, none starts from the target, and so it has at most as many
    legs as the table has keys. *)
Theorem found_path_is_simple factors fuel target from_unit path V' :
  from_unit ≠ target →
  find_conversion_path factors fuel target from_unit ∅ = Ret (Some path, V') →
  chain factors from_unit target path
  ∧ NoDup (leg_starts path ++ [target])
  ∧ length path ≤ length factors.
Proof.
  intros Hne Hr.
  assert (truthy (Some path) = true) as Ht.
  { destruct (find_conversion_path_answer _ _ _ _ _ _ _ Hr); done. }
  pose proof (find_conversion_path_sound _ _ _ _ _ _ _ Hr Ht) as Hch.
  destruct (find_conversion_path_fresh_starts _ _ _ _ _ _ _
              (not_elem_of_empty _) Hr) as [Hnd _].
  pose proof (find_conversion_path_starts_not_target _ _ _ _ _ _ _ Hr) as Hnt.
  simpl in *. split; [done|]. split.
  - apply NoDup_app. split; [done|]. split; [|apply NoDup_singleton].
    intros x Hx Hx'. apply list_elem_of_singleton in Hx' as ->.
    destruct (Hnt _ Hx); congruence.
  - pose proof (sources_size factors) as Hle.
    assert (size (list_to_set (leg_starts path) : gset string)
            ≤ size (sources factors)) as Hsub.
    { apply subseteq_size. intros x Hx. apply elem_of_list_to_set in Hx.
      by eapply chain_starts_sources. }
    rewrite size_list_to_set in Hsub by done.
    unfold leg_starts in Hsub. rewrite length_fmap in Hsub. lia.
Qed.

(** X7. A search that finds no path has visited exactly the units that
    forward entries lead to from where it started, the start included. *)
Theorem failed_search_visits_reachable factors fuel target from_unit r V' :
  find_conversion_path factors fuel target from_unit ∅ = Ret (r, V') →
  truthy r = false →
  ∀ x, x ∈ V' ↔ rtc (edge factors) from_unit x.
Proof.
  intros Hr Ht x. split.
  - intros Hx.
    destruct (find_conversion_path_reach _ _ _ _ _ _ _ Hr x Hx); set_solver.
  - pose proof (find_conversion_path_explored _ _ _ _ _ _ _ Hr Ht) as Hex.
    pose proof (find_conversion_path_grows _ _ _ _ _ _ _ Hr) as Hg.
    revert x. apply rtc_ind_r; [set_solver|].
    intros y z _ Hyz IH.
    destruct (Hex y IH) as [_ Hsucc]; [set_solver|]. by apply Hsucc.
Qed.

End ConverterShape.

(** ** The price methods *)

Lemma dict_get_set_eq {V : Type} (k : string) (v : V) (d : dict V) :
  dict_get k (dict_set k v d) = Some v.
Proof.
  induction d as [|[k' v'] d IH]; simpl.
  - by case_decide.
  - case_decide; simpl; by case_decide.
Qed.

Lemma dict_get_set_ne {V : Type} (k k' : string) (v : V) (d : dict V) :
  k' ≠ k → dict_get k' (dict_set k v d) = dict_get k' d.
Proof.
  intros Hne. induction d as [|[k0 v0] d IH]; simpl.
  - by case_decide.
  - case_decide; subst; simpl; case_decide; try done; congruence.
Qed.

Lemma nonempty_false (s : string) : nonempty s = false ↔ s = "".
Proof. destruct s; simpl; split; congruence. Qed.

Section PriceMethods.
Context {num : Type} `{PyNumber num} `{PyArith num}.
Variable lower : string → string.
Implicit Types (fs : filesystem num) (st : class_state num).
Implicit Types (self : manager num).

(** A load that raises leaves the class state as it was. *)
Lemma get_factors_raise_state fs file_path st e st' :
  _get_conversion_factors fs file_path st = (Raise e, st') → st' = st.
Proof.
  unfold _get_conversion_factors, load_factors.
  destruct (lru_slot st) as [[key cached]|]; [case_decide; [done|]|];
    destruct (_conversion_factors st); simpl; try done;
    destruct (fs _); simpl; congruence.
Qed.

(** What [convert] answers is decided by what the load answers. *)
Lemma convert_by_load fs value a b st :
  (convert fs value a b None st).1 =
    match (_get_conversion_factors fs None st).1 with
    | Ret factors => convert_with factors value a b
    | Raise e => Raise e
    | OutOfFuel => OutOfFuel
    end.
Proof.
  unfold convert. by destruct (_get_conversion_factors fs None st) as [[?|?|] ?].
Qed.

Lemma convert_not_out_of_fuel fs value a b file_path st :
  (convert fs value a b file_path st).1 ≠ OutOfFuel.
Proof.
  unfold convert.
  pose proof (get_factors_not_out_of_fuel fs file_path st) as Hget.
  destruct (_get_conversion_factors fs file_path st) as [[factors|e|] st'];
    simpl in *; [|done|done].
  apply convert_with_terminates.
Qed.

Lemma in_view_load fs st st_i :
  coherent st → in_view fs st st_i →
  (_get_conversion_factors fs None st_i).1 = (_get_conversion_factors fs None st).1
  ∧ in_view fs st (_get_conversion_factors fs None st_i).2.
Proof.
  intros Hco [->|(Hco_i & factors & Hf & Hload)].
  - split; [done|].
    destruct (_get_conversion_factors fs None st) as [[factors|e|] st'] eqn:Hget.
    + destruct (get_factors_loaded _ _ _ _ _ Hco Hget) as [Hco' Hf'].
      right. split; [done|]. exists factors. by rewrite Hget.
    + apply get_factors_raise_state in Hget as ->. by left.
    + pose proof (get_factors_not_out_of_fuel fs None st) as Hno.
      by rewrite Hget in Hno.
  - destruct (get_factors_cached fs None st_i factors Hco_i Hf)
      as (st2 & -> & Hco2 & Hf2 & _).
    split; [done|]. right. split; [done|]. by exists factors.
Qed.

Lemma calculate_ingredient_price_in_view fs self name amount unit st st_i :
  coherent st → in_view fs st st_i →
  (calculate_ingredient_price lower fs self name amount unit st_i).1
  = (calculate_ingredient_price lower fs self name amount unit st).1
  ∧ in_view fs st
      (calculate_ingredient_price lower fs self name amount unit st_i).2.
Proof.
  intros Hco Hview. unfold calculate_ingredient_price.
  destruct (dict_get (lower name) (price_data self)) as [info|]; [|done].
  destruct (bool_decide _ && _ && _); [|done].
  destruct (in_view_load fs st st_i Hco Hview) as [Hsame Hnext].
  pose proof (convert_by_load fs amount unit
                (default "" (info_measurement info)) st_i) as Hi.
  pose proof (convert_by_load fs amount unit
                (default "" (info_measurement info)) st) as H0'.
  rewrite Hsame in Hi. rewrite <- H0' in Hi.
  pose proof (convert_state fs amount unit
                (default "" (info_measurement info)) None st_i) as Hst.
  destruct (convert fs amount unit _ None st_i) as [o_i s_i].
  destruct (convert fs amount unit _ None st) as [o s].
  simpl in Hi, Hst. rewrite Hi, Hst. by destruct o.
Qed.

Lemma calculate_ingredient_price_returns fs self name amount unit st :
  ∃ r w st',
    calculate_ingredient_price lower fs self name amount unit st
    = (Ret r, w, st').
Proof.
  unfold calculate_ingredient_price.
  destruct (dict_get (lower name) (price_data self)) as [info|]; [|eauto].
  destruct (bool_decide _ && _ && _); [|eauto].
  pose proof (convert_not_out_of_fuel fs amount unit
                (default "" (info_measurement info)) None st) as Hno.
  destruct (convert fs amount unit _ None st) as [[x|e|] st']; simpl in *;
    [eauto | eauto | done].
Qed.

(** The loop adds up the known prices in order, notes one missing name
    for each unknown one, and prints the items' warnings in order. *)
Lemma price_ingredients_sum fs self st :
  coherent st →
  ∀ items total missing printed st_i,
    in_view fs st st_i →
    ∃ missing' st_j,
      price_ingredients lower fs self items total missing printed st_i
      = (Ret (fold_left py_add
                (omap (price_of_item lower fs self st) items) total,
              missing ++ missing'),
         printed ++ flat_map (warnings_of_item lower fs self st) items,
         st_j)
      ∧ length missing'
        + length (omap (price_of_item lower fs self st) items)
        = length items.
Proof.
  intros Hco items.
  induction items as [|[name info] items IH];
    intros total missing printed st_i Hview.
  - exists [], st_i. simpl. by rewrite !app_nil_r.
  - cbn [price_ingredients flat_map].
    destruct (calculate_ingredient_price_in_view fs self name
                (default py_int_zero (info_amount info))
                (default "" (info_unit info)) st st_i Hco Hview)
      as [Hsame Hnext].
    destruct (calculate_ingredient_price_returns fs self name
                (default py_int_zero (info_amount info))
                (default "" (info_unit info)) st_i)
      as (r & w & st' & Hcalc).
    rewrite Hcalc in Hsame, Hnext. simpl in Hsame, Hnext.
    assert (price_of_item lower fs self st (name, info) = r) as Hitem.
    { unfold price_of_item. simpl. by rewrite <- Hsame. }
    assert (∀ l, omap (price_of_item lower fs self st) ((name, info) :: l)
                 = match r with
                   | Some price =>
                     price :: omap (price_of_item lower fs self st) l
                   | None => omap (price_of_item lower fs self st) l
                   end) as Homap.
    { intros l. rewrite <- Hitem. reflexivity. }
    assert (warnings_of_item lower fs self st (name, info) = w) as ->.
    { unfold warnings_of_item. simpl. by rewrite <- Hsame. }
    rewrite Homap, Hcalc, (assoc_L (++)). clear Homap Hitem.
    destruct r as [price|].
    + destruct (IH (py_add total price) missing (printed ++ w) st' Hnext)
        as (missing' & st_j & -> & Hlen).
      exists missing', st_j. split; [done|]. simpl. lia.
    + destruct (IH total (missing ++ [name]) (printed ++ w) st' Hnext)
        as (missing' & st_j & -> & Hlen).
      exists (name :: missing'), st_j.
      rewrite <- app_assoc. split; [done|]. simpl. lia.
Qed.

Lemma price_ingredients_returns fs self :
  ∀ items total missing printed st,
    ∃ res printed' st',
      price_ingredients lower fs self items total missing printed st
      = (Ret res, printed', st').
Proof.
  intros items. induction items as [|[name info] items IH];
    intros total missing printed st; cbn [price_ingredients]; [eauto|].
  destruct (calculate_ingredient_price_returns fs self name
              (default py_int_zero (info_amount info))
              (default "" (info_unit info)) st)
    as (r & w & st' & ->).
  destruct r; apply IH.
Qed.

(** X8. For an ingredient without a price record the price is unknown;
    for one whose unit is the record's unit, or where either unit is
    empty, it is [amount * price]. In both cases the converter is not
    called: nothing is loaded, nothing is printed, and no conversion
    file needs to exist. *)
Theorem ingredient_price_without_conversion fs self name amount unit st :
  (dict_get (lower name) (price_data self) = None →
   calculate_ingredient_price lower fs self name amount unit st
   = (Ret None, [], st))
  ∧ (∀ info,
       dict_get (lower name) (price_data self) = Some info →
       unit = default "" (info_measurement info)
       ∨ unit = "" ∨ default "" (info_measurement info) = "" →
       calculate_ingredient_price lower fs self name amount unit st
       = (Ret (Some (py_mul amount (default py_int_zero (info_price info)))),
          [], st)).
Proof.
  unfold calculate_ingredient_price. split.
  - by intros ->.
  - intros info -> Hsame.
    destruct (bool_decide _ && _ && _) eqn:Hcond; [|done].
    apply andb_prop in Hcond as [Hcond Hpu]. apply andb_prop in Hcond as [Hne Hu].
    apply bool_decide_eq_true in Hne.
    destruct Hsame as [Heq|[Heq|Heq]].
    + done.
    + by rewrite Heq in Hu.
    + by rewrite Heq in Hpu.
Qed.

(** X9. [calculate_ingredient_price] always returns, whatever [convert]
    does. The price is unknown exactly when there is no price record or a
    warning was printed; and a warning is printed only for the exception
    that [convert] raised on the ingredient's unit and the record's. *)
Theorem ingredient_price_always_returns fs self name amount unit st :
  ∃ r w st',
    calculate_ingredient_price lower fs self name amount unit st
    = (Ret r, w, st')
    ∧ (r = None ↔ dict_get (lower name) (price_data self) = None ∨ w ≠ [])
    ∧ (∀ x, x ∈ w →
         ∃ price_unit e,
           x = CouldNotConvert unit price_unit name e
           ∧ (convert fs amount unit price_unit None st).1 = Raise e).
Proof.
  unfold calculate_ingredient_price.
  destruct (dict_get (lower name) (price_data self)) as [info|].
  - destruct (bool_decide _ && _ && _).
    + pose proof (convert_not_out_of_fuel fs amount unit
                    (default "" (info_measurement info)) None st) as Hno.
      destruct (convert fs amount unit _ None st) as [[x|e|] st'] eqn:Hconv;
        simpl in *; [| |done].
      * eexists _, _, _. split; [done|]. split.
        -- split; [done|]. intros [?|?]; done.
        -- intros y Hy. inversion Hy.
      * eexists _, _, _. split; [done|]. split.
        -- split; [by right | done].
        -- intros y Hy. apply list_elem_of_singleton in Hy as ->.
           exists (default "" (info_measurement info)), e.
           by rewrite Hconv.
    + eexists _, _, _. split; [done|]. split.
      * split; [done|]. intros [?|?]; done.
      * intros y Hy. inversion Hy.
  - eexists _, _, _. split; [done|]. split.
    + split; [by left | done].
    + intros y Hy. inversion Hy.
Qed.

(** X10. For a recipe with a non-empty dict of ingredients,
    [calculate_recipe_price] returns [None] when no ingredient has a known
    price, and otherwise the sum of the known prices, added in order to
    [0.0]: ingredients of unknown price are left out of the total, without
    an error. What the call prints is the warnings of its ingredients, in
    order; and an ingredient is left out exactly when it has no price
    record, which prints nothing, or when its conversion raised, which
    prints a warning. *)
Theorem recipe_price_sums_known_prices fs self recipe_data items st :
  coherent st →
  recipe_ingredients recipe_data = Some (Structured items) →
  items ≠ [] →
  (calculate_recipe_price lower fs self recipe_data st).1 =
    (match omap (price_of_item lower fs self st) items with
     | [] => Price None
     | known => Price (Some (fold_left py_add known py_float_zero))
     end,
     flat_map (warnings_of_item lower fs self st) items)
  ∧ (∀ item,
       (price_of_item lower fs self st item = None
        ↔ dict_get (lower item.1) (price_data self) = None
          ∨ warnings_of_item lower fs self st item ≠ [])
       ∧ (dict_get (lower item.1) (price_data self) = None →
          warnings_of_item lower fs self st item = [])
       ∧ (∀ w, w ∈ warnings_of_item lower fs self st item →
            ∃ price_unit e,
              w = CouldNotConvert (default "" (info_unit item.2))
                    price_unit item.1 e
              ∧ (convert fs (default py_int_zero (info_amount item.2))
                   (default "" (info_unit item.2)) price_unit None st).1
                = Raise e)).
Proof.
  intros Hco Hing Hne. split.
  - unfold calculate_recipe_price. rewrite Hing.
    destruct items as [|item items]; [done|].
    destruct (price_ingredients_sum fs self st Hco (item :: items)
                py_float_zero [] [] st)
      as (missing' & st_j & -> & Hlen); [by left|].
    simpl app.
    destruct (omap (price_of_item lower fs self st) (item :: items))
      as [|price known] eqn:Hknown.
    + simpl in Hlen.
      rewrite bool_decide_eq_true_2
        by (destruct missing'; simpl in *; [lia|done]).
      rewrite bool_decide_eq_true_2 by (simpl; lia). done.
    + simpl in Hlen.
      rewrite (bool_decide_eq_false_2 (length missing' = _)) by (simpl; lia).
      by rewrite andb_false_r.
  - intros [name info].
    unfold price_of_item, warnings_of_item, calculate_ingredient_price.
    cbn [fst snd].
    destruct (dict_get (lower name) (price_data self)) as [record|];
      [|split; [split; [by left | done] | split; [done | intros w Hw; inversion Hw]]].
    destruct (bool_decide _ && _ && _).
    + pose proof (convert_not_out_of_fuel fs
                    (default py_int_zero (info_amount info))
                    (default "" (info_unit info))
                    (default "" (info_measurement record)) None st) as Hno.
      destruct (convert fs _ _ _ None st) as [[x|e|] st'] eqn:Hconv;
        simpl in *; [| |done].
      * split; [split; [done | intros [?|?]; done]|].
        split; [done | intros w Hw; inversion Hw].
      * split; [split; [by right | done]|]. split; [done|].
        intros w Hw. apply list_elem_of_singleton in Hw as ->.
        exists (default "" (info_measurement record)), e.
        by rewrite Hconv.
    + simpl. split; [split; [done | intros [?|?]; done]|].
      split; [done | intros w Hw; inversion Hw].
Qed.

(** X11. [calculate_recipe_price] raises exactly on a recipe whose
    ingredients are a non-empty list of names, the earlier format: there
    it raises [AttributeError]. On every other recipe it returns. *)
Theorem recipe_price_raises_on_legacy_list fs self recipe_data st :
  match recipe_ingredients recipe_data with
  | Some (Legacy (_ :: _)) =>
    calculate_recipe_price lower fs self recipe_data st
    = (RaisesAttributeError no_items_message, [], st)
  | _ =>
    ∃ price,
      (calculate_recipe_price lower fs self recipe_data st).1.1
      = Price price
  end.
Proof.
  unfold calculate_recipe_price.
  destruct (recipe_ingredients recipe_data) as [[[|item items]|[|n names]]|];
    eauto.
  destruct (price_ingredients_returns fs self (item :: items)
              py_float_zero [] [] st)
    as ([total missing] & printed' & st' & ->).
  destruct (bool_decide _ && _); eauto.
Qed.

(** X12. After [add_ingredient_price(name, price, measurement)], any
    spelling of the name that lowers to the same key is priced at
    [amount * price] when asked in that measurement; the price of every
    other key is as before; and the saved file loads back as the new
    price data. *)
Theorem added_price_is_used fs self name price measurement st :
  (∀ name' amount,
     lower name' = lower name →
     calculate_ingredient_price lower fs
       (add_ingredient_price lower self name price measurement).1.1
       name' amount measurement st
     = (Ret (Some (py_mul amount price)), [], st))
  ∧ (∀ name' amount unit,
       lower name' ≠ lower name →
       calculate_ingredient_price lower fs
         (add_ingredient_price lower self name price measurement).1.1
         name' amount unit st
       = calculate_ingredient_price lower fs self name' amount unit st)
  ∧ (load_price_data (price_file self)
       (add_ingredient_price lower self name price measurement).1.2).1
    = price_data (add_ingredient_price lower self name price measurement).1.1.
Proof.
  split; [|split].
  - intros name' amount Hkey. unfold calculate_ingredient_price. simpl.
    rewrite Hkey, dict_get_set_eq. simpl.
    rewrite bool_decide_eq_false_2 by (intros Hne; by apply Hne). done.
  - intros name' amount unit Hkey. unfold calculate_ingredient_price. simpl.
    by rewrite dict_get_set_ne.
  - reflexivity.
Qed.

End PriceMethods.

(** ** The further properties on concrete data *)

Lemma scenario_table_keys_distinct : NoDup (dict_keys scenario_table).
Proof. unfold dict_keys. simpl. repeat constructor; set_solver. Qed.

Lemma scenario_forward_path : forward_path scenario_table "lb" "g".
Proof. apply (tc_l _ "lb" "oz" "g"); [|apply tc_once]; by eexists. Qed.

(** The units one entry away from [oz]: [lb] (against its entry) and [g]. *)
Lemma get_compatible_units_one_hop_witness :
  ∃ units,
    get_compatible_units (one_file "conversions.json" scenario_table)
      "oz" None (initial_state "conversions.json")
    = (Ret units, loaded_state scenario_table)
    ∧ ∀ u, u ∈ units ↔ edge scenario_table "oz" u ∨ edge scenario_table u "oz".
Proof.
  apply (get_compatible_units_one_hop
           (one_file "conversions.json" scenario_table) None
           (initial_state "conversions.json") scenario_table
           (loaded_state scenario_table) "oz" eq_refl
           scenario_table_keys_distinct).
Defined.

Lemma compatible_units_symmetric_witness :
  "lb" ∈ compatible_units scenario_table "oz"
  ↔ "oz" ∈ compatible_units scenario_table "lb".
Proof.
  apply (compatible_units_symmetric scenario_table "oz" "lb"
           scenario_table_keys_distinct).
Defined.

Lemma lb_compatible_with_oz : "lb" ∈ compatible_units scenario_table "oz".
Proof.
  apply compatible_units_one_hop; [apply scenario_table_keys_distinct|].
  right. by eexists.
Qed.

Lemma compatible_units_convert_witness :
  convert_with scenario_table 1%float "oz" "lb"
  ≠ Raise (ValueError (no_path_message "oz" "lb"))
  ∧ convert_with scenario_table 1%float "lb" "oz"
    ≠ Raise (ValueError (no_path_message "oz" "lb")).
Proof.
  apply (compatible_units_convert scenario_table "oz" "lb" 1%float _
           scenario_table_keys_distinct lb_compatible_with_oz).
Defined.

(** [g] is a target only: [get_available_units()] does not list it, and
    from [g] nothing but [oz], whose entry lists [g], can be reached. *)
Lemma convert_from_unlisted_unit_witness :
  get_available_units (one_file "conversions.json" scenario_table) None
    (initial_state "conversions.json")
  = (Ret ["lb"; "oz"], loaded_state scenario_table)
  ∧ convert (one_file "conversions.json" scenario_table)
      1%float "g" "lb" None (initial_state "conversions.json")
    = (Raise (ValueError "No conversion path found from 'g' to 'lb'"),
       loaded_state scenario_table).
Proof.
  destruct (convert_from_unlisted_unit
              (one_file "conversions.json" scenario_table) None
              (initial_state "conversions.json") scenario_table
              (loaded_state scenario_table) 1%float "g" "lb" eq_refl)
    as [Hunits Hconvert].
  split; [exact Hunits|].
  apply Hconvert; [|discriminate|reflexivity].
  unfold dict_keys. simpl. set_solver.
Defined.

Lemma convert_along_forward_chain_witness :
  ∃ path,
    chain scenario_table "lb" "g" path
    ∧ ∀ value, convert_with scenario_table value "lb" "g"
               = Ret (apply_path value path).
Proof.
  apply (convert_along_forward_chain scenario_table "lb" "g").
  - discriminate.
  - exact scenario_forward_path.
  - reflexivity.
Defined.

(** The path found from [a] to [c] on the table with two chains. *)
Lemma found_path_is_simple_witness :
  chain two_chains_table "a" "c" [("a", "d", 2%float); ("d", "c", 5%float)]
  ∧ NoDup (leg_starts [("a", "d", 2%float); ("d", "c", 5%float)] ++ ["c"])
  ∧ length [("a", "d", 2%float); ("d", "c", 5%float)] ≤ length two_chains_table.
Proof.
  apply (found_path_is_simple two_chains_table 4 "c" "a"
           [("a", "d", 2%float); ("d", "c", 5%float)]
           ({["d"]} ∪ ({["a"]} ∪ ∅))).
  - discriminate.
  - reflexivity.
Defined.

(** On the cyclic table the failed search for [c] from [a] visited [b],
    which an entry of [a] leads to. *)
Lemma failed_search_visits_reachable_witness :
  "b" ∈ ({["b"]} ∪ ({["a"]} ∪ ∅) : gset string)
  ↔ rtc (edge both_ways_table) "a" "b".
Proof.
  apply (failed_search_visits_reachable both_ways_table 4 "c" "a" None
           ({["b"]} ∪ ({["a"]} ∪ ∅)) eq_refl eq_refl "b").
Defined.

(** Saffron has no price record; the onions are asked in the unit of
    their price. Neither needs a conversion file. *)
Lemma ingredient_price_without_conversion_witness :
  calculate_ingredient_price lower_ascii no_files pantry "Saffron"
    1%float "g" (initial_state "conversions.json")
  = (Ret None, [], initial_state "conversions.json")
  ∧ calculate_ingredient_price lower_ascii no_files pantry "Onion"
      8%float "oz" (initial_state "conversions.json")
    = (Ret (Some (8 * 0.5)%float), [], initial_state "conversions.json").
Proof.
  split.
  - refine (proj1 (ingredient_price_without_conversion lower_ascii no_files
                     pantry "Saffron" 1%float "g"
                     (initial_state "conversions.json")) _).
    reflexivity.
  - refine (proj2 (ingredient_price_without_conversion lower_ascii no_files
                     pantry "Onion" 8%float "oz"
                     (initial_state "conversions.json"))
              {| info_price := Some 0.5%float; info_measurement := Some "oz" |}
              _ _).
    + reflexivity.
    + by left.
Defined.

(** Eight ounces of onion at 0.5 and sixteen ounces of shrimp, a pound
    at 12, make 16; the saffron, of unknown price, is left out and nothing
    is printed. Without a conversion file the shrimp are left out as
    well, with a warning. *)
Lemma recipe_price_sums_known_prices_witness :
  (calculate_recipe_price lower_ascii
     (one_file "conversions.json" scenario_table) pantry stew
     (initial_state "conversions.json")).1
  = (Price (Some (0 + 8 * 0.5 + 16 / 16 * 12)%float), [])
  ∧ (calculate_recipe_price lower_ascii no_files pantry stew
       (initial_state "conversions.json")).1
    = (Price (Some (0 + 8 * 0.5)%float),
       [CouldNotConvert "oz" "lb" "Shrimp"
          (FileNotFoundError (not_found_message "conversions.json"))]).
Proof.
  split.
  - refine (proj1 (recipe_price_sums_known_prices lower_ascii
                     (one_file "conversions.json" scenario_table) pantry stew _
                     (initial_state "conversions.json")
                     (coherent_initial "conversions.json") eq_refl _)).
    discriminate.
  - refine (proj1 (recipe_price_sums_known_prices lower_ascii
                     no_files pantry stew _
                     (initial_state "conversions.json")
                     (coherent_initial "conversions.json") eq_refl _)).
    discriminate.
Defined.

(** A price added for ["Shrimp"] is found under ["SHRIMP"], and leaves
    the onions' price alone. *)
Lemma added_price_is_used_witness :
  calculate_ingredient_price lower_ascii no_files
    (add_ingredient_price lower_ascii pantry "Shrimp" 15%float "lb").1.1
    "SHRIMP" 2%float "lb" (initial_state "conversions.json")
  = (Ret (Some (2 * 15)%float), [], initial_state "conversions.json")
  ∧ calculate_ingredient_price lower_ascii no_files
      (add_ingredient_price lower_ascii pantry "Shrimp" 15%float "lb").1.1
      "Onion" 8%float "oz" (initial_state "conversions.json")
    = calculate_ingredient_price lower_ascii no_files pantry
        "Onion" 8%float "oz" (initial_state "conversions.json").
Proof.
  split.
  - refine (proj1 (added_price_is_used lower_ascii no_files pantry "Shrimp"
                     15%float "lb" (initial_state "conversions.json"))
              "SHRIMP" 2%float _).
    reflexivity.
  - refine (proj1 (proj2 (added_price_is_used lower_ascii no_files pantry
                            "Shrimp" 15%float "lb"
                            (initial_state "conversions.json")))
              "Onion" 8%float "oz" _).
    discriminate.
Defined.

(** ** The catalogue *)

Lemma dict_get_alter_eq {V : Type} (f : V → V) (k : string) (d : dict V) :
  dict_get k (dict_alter f k d) = f <$> dict_get k d.
Proof.
  induction d as [|[k' v] d IH]; simpl; [done|].
  case_decide; subst; simpl; by case_decide.
Qed.

Lemma dict_get_alter_ne {V : Type} (f : V → V) (k k' : string) (d : dict V) :
  k' ≠ k → dict_get k' (dict_alter f k d) = dict_get k' d.
Proof.
  intros Hne. induction d as [|[k0 v] d IH]; simpl; [done|].
  case_decide; subst; simpl; case_decide; try done; congruence.
Qed.

Lemma dict_alter_compose {V : Type} (f g : V → V) (k : string) (d : dict V) :
  dict_alter g k (dict_alter f k d) = dict_alter (g ∘ f) k d.
Proof.
  induction d as [|[k' v] d IH]; simpl; [done|].
  case_decide; subst; simpl; case_decide; try done. by rewrite IH.
Qed.

Lemma dict_alter_ext {V : Type} (f g : V → V) (k : string) (d : dict V) :
  (∀ v, f v = g v) → dict_alter f k d = dict_alter g k d.
Proof.
  intros Hfg. induction d as [|[k' v] d IH]; simpl; [done|].
  case_decide; by rewrite ?Hfg, ?IH.
Qed.

(** Storing under a key and then deleting the key is deleting it. *)
Lemma dict_del_set {V : Type} (k : string) (v : V) (d : dict V) :
  dict_del k (dict_set k v d) = dict_del k d.
Proof.
  induction d as [|[k' v'] d IH]; simpl.
  - by case_decide.
  - case_decide; subst; simpl; case_decide; try done. by rewrite IH.
Qed.

Lemma dict_get_del_eq {V : Type} (k : string) (d : dict V) :
  NoDup (dict_keys d) → dict_get k (dict_del k d) = None.
Proof.
  unfold dict_keys. induction d as [|[k' v] d IH]; simpl; intros Hnd; [done|].
  apply NoDup_cons in Hnd as [Hk' Hnd]. case_decide; subst.
  - by apply dict_get_None.
  - simpl. case_decide; [done|]. by apply IH.
Qed.

Section Catalogue.
Context {num : Type} `{PyNumber num} `{PyArith num}.
Variable lower : string → string.
Implicit Types (self : manager num) (node root : tree num).
Implicit Types (path : list string).

Lemma node_at_app root path1 path2 :
  node_at root (path1 ++ path2) =
    match node_at root path1 with
    | Ret node => node_at node path2
    | other => other
    end.
Proof.
  revert root. induction path1 as [|folder path1 IH]; intros root; simpl; [done|].
  destruct (dict_get folder (node_folders root)); [apply IH | done].
Qed.

(** The parent of a folder that the path reaches is reached too. *)
Lemma node_at_removelast root path node :
  node_at root path = Ret node →
  ∃ parent, node_at root (removelast path) = Ret parent.
Proof.
  destruct path as [|folder path] using rev_ind; [eauto|].
  clear IHpath. rewrite removelast_last, node_at_app.
  destruct (node_at root path) as [parent| |]; [eauto | done | done].
Qed.

Lemma node_at_update_at root path f node :
  node_at root path = Ret node →
  node_at (update_at path f root) path = Ret (f node).
Proof.
  revert root. induction path as [|folder path IH]; intros root; simpl.
  - by intros [= ->].
  - rewrite dict_get_alter_eq.
    destruct (dict_get folder (node_folders root)) as [child|]; [|done].
    simpl. apply IH.
Qed.

(** A change to the recipes of one node leaves every other node with
    the recipes it had. *)
Lemma node_at_update_at_other f :
  (∀ node, node_folders (f node) = node_folders node) →
  ∀ path1 path2 root node,
    path1 ≠ path2 →
    node_at root path2 = Ret node →
    ∃ node', node_at (update_at path1 f root) path2 = Ret node'
             ∧ node_recipes node' = node_recipes node.
Proof.
  intros Hf path1.
  induction path1 as [|folder1 path1 IH]; intros path2 root node Hne Hat.
  - destruct path2 as [|folder2 path2]; [done|]. simpl in *.
    rewrite Hf. eauto.
  - destruct path2 as [|folder2 path2]; simpl in *.
    + inversion Hat; subst. eauto.
    + destruct (decide (folder2 = folder1)) as [->|Hfolder].
      * rewrite dict_get_alter_eq.
        destruct (dict_get folder1 (node_folders root)) as [child|]; [|done].
        simpl. apply IH; [congruence | done].
      * rewrite dict_get_alter_ne by done.
        destruct (dict_get folder2 (node_folders root)); [eauto | done].
Qed.

Lemma update_at_compose path f g root :
  update_at path g (update_at path f root) = update_at path (g ∘ f) root.
Proof.
  revert root. induction path as [|folder path IH]; intros root; simpl; [done|].
  rewrite dict_alter_compose. f_equal. by apply dict_alter_ext.
Qed.

Lemma update_at_ext path f g root :
  (∀ node, f node = g node) → update_at path f root = update_at path g root.
Proof.
  intros Hfg. revert root.
  induction path as [|folder path IH]; intros root; simpl; [done|].
  f_equal. by apply dict_alter_ext.
Qed.

(** Along the walk [dest_node] stays the node that [full_path] reaches. *)
Lemma walk_destination_reaches root path_parts :
  ∀ dest_node full_path dest_node' full_path',
    node_at root full_path = Ret dest_node →
    walk_destination root path_parts dest_node full_path
    = Ret (inr (dest_node', full_path')) →
    node_at root full_path' = Ret dest_node'.
Proof.
  induction path_parts as [|part rest IH];
    intros dest_node full_path dest_node' full_path' Hat Hwalk; simpl in Hwalk.
  - by inversion Hwalk; subst.
  - case_decide.
    + destruct full_path as [|folder full_path]; [eauto|].
      destruct (node_at root (removelast (folder :: full_path)))
        as [parent| |] eqn:Hparent; [eauto | done | done].
    + destruct (dict_get part (node_folders dest_node)) as [child|] eqn:Hchild;
        [|done].
      eapply IH; [|exact Hwalk].
      rewrite node_at_app, Hat. simpl. by rewrite Hchild.
Qed.

Lemma find_destination_reaches self current destination_path dest_node full_path :
  get_current_node self = Ret current →
  find_destination self current destination_path
  = Ret (inr (dest_node, full_path)) →
  node_at (recipes self) full_path = Ret dest_node.
Proof.
  intros Hcur. unfold find_destination.
  destruct (starts_with_slash destination_path); simpl;
    apply walk_destination_reaches; done.
Qed.

(** X13. While the current path leads to a node, [enter_folder] and
    [go_up] keep it so and leave the catalogue alone: [enter_folder]
    returns [True] exactly for a folder of the current node, and after
    either call [get_current_node] still returns, without [KeyError]. *)
Theorem navigation_stays_in_catalogue self current :
  get_current_node self = Ret current →
  (∀ folder_name,
     ∃ entered self' printed,
       enter_folder self folder_name = (Ret entered, self', printed)
       ∧ (entered = true
          ↔ is_Some (dict_get folder_name (node_folders current)))
       ∧ recipes self' = recipes self
       ∧ ∃ node, get_current_node self' = Ret node)
  ∧ recipes (go_up self).1.2 = recipes self
  ∧ ∃ node, get_current_node (go_up self).1.2 = Ret node.
Proof.
  intros Hcur. split; [|split].
  - intros folder_name. unfold enter_folder. rewrite Hcur.
    destruct (dict_get folder_name (node_folders current)) as [child|] eqn:Hchild.
    + eexists _, _, _. split; [done|]. split; [by split; eauto|].
      split; [done|]. exists child.
      unfold get_current_node in *. simpl.
      rewrite node_at_app, Hcur. simpl. by rewrite Hchild.
    + eexists _, _, _. split; [done|]. split.
      * split; [done|]. by intros [? ?].
      * split; [done|]. eauto.
  - unfold go_up. by destruct (current_path self).
  - unfold go_up, get_current_node in *.
    destruct (current_path self) as [|folder path] eqn:Hpath; simpl.
    + rewrite Hpath. eauto.
    + by apply (node_at_removelast _ (folder :: path) current).
Qed.

(** X14. [go_up] undoes [enter_folder]: after a successful
    [enter_folder], [go_up] returns [True] and gives back the manager as
    it was. At the root [go_up] returns [False] and changes nothing. *)
Theorem go_up_undoes_enter_folder self folder_name :
  (∀ self' printed,
     enter_folder self folder_name = (Ret true, self', printed) →
     go_up self' = (true, self, []))
  ∧ (current_path self = [] →
     go_up self = (false, self, ["Already at root directory!"])).
Proof.
  split.
  - intros self' printed. unfold enter_folder.
    destruct (get_current_node self) as [current| |]; [|done|done].
    destruct (dict_get folder_name (node_folders current)); [|done].
    intros [= <- _]. unfold go_up. simpl.
    destruct (current_path self ++ [folder_name]) as [|first rest] eqn:Hpath.
    { by destruct (current_path self). }
    rewrite <- Hpath, removelast_last. by destruct self.
  - intros Hroot. unfold go_up. by rewrite Hroot.
Qed.

(** X15. [create_folder] with a new name adds an empty folder to the
    current node, writes the catalogue to the data file, and leaves the
    current path and the node's recipes as they were: the node's folders
    are the ones it had, with the new name set to an empty folder, so
    every other folder is kept with its contents. [enter_folder] on the
    name then succeeds. With the name of a folder that is there, it
    changes nothing and writes nothing: the folder keeps its contents. *)
Theorem create_folder_adds_or_keeps self current folder_name :
  get_current_node self = Ret current →
  (dict_get folder_name (node_folders current) = None →
   ∃ self' printed,
     create_folder self folder_name
     = (Ret tt, self', printed, Some (recipes self'))
     ∧ current_path self' = current_path self
     ∧ node_at (recipes self') (current_path self ++ [folder_name])
       = Ret (Node [] [])
     ∧ (enter_folder self' folder_name).1.1 = Ret true
     ∧ ∃ current', get_current_node self' = Ret current'
                   ∧ node_recipes current' = node_recipes current
                   ∧ node_folders current'
                     = dict_set folder_name (Node [] []) (node_folders current)
                   ∧ ∀ other, other ≠ folder_name →
                       dict_get other (node_folders current')
                       = dict_get other (node_folders current))
  ∧ (∀ folder,
       dict_get folder_name (node_folders current) = Some folder →
       create_folder self folder_name
       = (Ret tt, self,
          ["Folder '" +:+ folder_name +:+ "' already exists!"], None)).
Proof.
  intros Hcur. split.
  - intros Hnew. unfold create_folder. rewrite Hcur, Hnew.
    eexists (with_recipes self (update_at (current_path self) _ _)), _.
    split; [reflexivity|]. split; [done|].
    pose proof (node_at_update_at (recipes self) (current_path self)
                  (λ node, Node (dict_set folder_name (Node [] [])
                                   (node_folders node)) (node_recipes node))
                  current Hcur) as Hnode.
    split; [|split].
    + cbn [with_recipes recipes current_path].
      rewrite node_at_app, Hnode. simpl. by rewrite dict_get_set_eq.
    + unfold enter_folder, get_current_node.
      cbn [with_recipes recipes current_path]. rewrite Hnode. simpl.
      by rewrite dict_get_set_eq.
    + eexists. unfold get_current_node.
      cbn [with_recipes recipes current_path]. rewrite Hnode.
      split; [done|]. split; [done|]. split; [done|].
      intros other Hother. simpl. by apply dict_get_set_ne.
  - intros folder Hold. unfold create_folder. by rewrite Hcur, Hold.
Qed.

(** X16. [delete_folder] removes a folder of the current node only when
    the folder is empty and the answer lowers to ["y"]: otherwise the
    manager is unchanged and nothing is written. When it removes the
    folder, the current path still leads to the node, and [enter_folder]
    on the name then fails. *)
Theorem delete_folder_only_empty_and_confirmed self current folder_name
    folder answer :
  get_current_node self = Ret current →
  dict_get folder_name (node_folders current) = Some folder →
  (node_folders folder ≠ [] ∨ node_recipes folder ≠ [] ∨ lower answer ≠ "y" →
   (delete_folder lower self folder_name answer).1.1.2 = self
   ∧ (delete_folder lower self folder_name answer).2 = None)
  ∧ (node_folders folder = [] → node_recipes folder = [] →
     lower answer = "y" →
     NoDup (dict_keys (node_folders current)) →
     ∃ self' printed,
       delete_folder lower self folder_name answer
       = (Ret tt, self', printed, Some (recipes self'))
       ∧ current_path self' = current_path self
       ∧ (enter_folder self' folder_name).1.1 = Ret false
       ∧ ∃ current', get_current_node self' = Ret current'
                     ∧ node_folders current'
                       = dict_del folder_name (node_folders current)).
Proof.
  intros Hcur Hfolder. unfold delete_folder. rewrite Hcur, Hfolder. split.
  - intros Hkeep.
    destruct (node_folders folder) as [|sub subs];
      destruct (node_recipes folder) as [|held helds]; try done.
    case_decide; [|done].
    destruct Hkeep as [?|[?|?]]; done.
  - intros -> -> Hyes Hnd. rewrite decide_True by done.
    eexists (with_recipes self (update_at (current_path self) _ _)), _.
    split; [reflexivity|]. split; [done|].
    pose proof (node_at_update_at (recipes self) (current_path self)
                  (λ node, Node (dict_del folder_name (node_folders node))
                             (node_recipes node))
                  current Hcur) as Hnode.
    split.
    + unfold enter_folder, get_current_node.
      cbn [with_recipes recipes current_path]. rewrite Hnode. simpl.
      by rewrite dict_get_del_eq.
    + eexists. unfold get_current_node.
      cbn [with_recipes recipes current_path]. by rewrite Hnode.
Qed.

(** X17. A move whose destination is the folder the recipe is in loses
    the recipe: the catalogue after the call, in memory and in the data
    file, is the catalogue before with the recipe deleted from the
    current node, and the recipe is nowhere else. *)
Theorem move_recipe_to_own_folder_deletes self current recipe_name
    recipe_data destination_path dest_node :
  get_current_node self = Ret current →
  dict_get recipe_name (node_recipes current) = Some recipe_data →
  find_destination self current destination_path
  = Ret (inr (dest_node, current_path self)) →
  ∃ root printed,
    move_recipe self recipe_name destination_path
    = (Ret tt, with_recipes self root, printed, Some root)
    ∧ root = update_at (current_path self)
               (λ node, Node (node_folders node)
                          (dict_del recipe_name (node_recipes node)))
               (recipes self)
    ∧ ∃ current', node_at root (current_path self) = Ret current'
        ∧ node_recipes current' = dict_del recipe_name (node_recipes current)
        ∧ (NoDup (dict_keys (node_recipes current)) →
           dict_get recipe_name (node_recipes current') = None).
Proof.
  intros Hcur Hrecipe Hdest. unfold move_recipe.
  rewrite Hcur, Hrecipe, Hdest.
  eexists _, _. split; [done|].
  assert (update_at (current_path self)
            (λ node, Node (node_folders node)
                       (dict_del recipe_name (node_recipes node)))
            (update_at (current_path self)
               (λ node, Node (node_folders node)
                          (dict_set recipe_name recipe_data (node_recipes node)))
               (recipes self))
          = update_at (current_path self)
              (λ node, Node (node_folders node)
                         (dict_del recipe_name (node_recipes node)))
              (recipes self)) as Hroot.
  { rewrite update_at_compose. apply update_at_ext.
    intros node. simpl. by rewrite dict_del_set. }
  split; [exact Hroot|]. rewrite Hroot.
  eexists. split; [by apply node_at_update_at|]. split; [done|].
  simpl. apply dict_get_del_eq.
Qed.

(** X18. A move whose destination is another folder puts the recipe,
    with its data, into that folder under its name, in place of any
    recipe of that name there, and deletes it from the current node; the
    current path is unchanged and the catalogue is written to the data
    file. *)
Theorem move_recipe_to_other_folder self current recipe_name recipe_data
    destination_path dest_node full_path :
  get_current_node self = Ret current →
  dict_get recipe_name (node_recipes current) = Some recipe_data →
  find_destination self current destination_path
  = Ret (inr (dest_node, full_path)) →
  full_path ≠ current_path self →
  ∃ self' printed,
    move_recipe self recipe_name destination_path
    = (Ret tt, self', printed, Some (recipes self'))
    ∧ current_path self' = current_path self
    ∧ (∃ arrived,
         node_at (recipes self') full_path = Ret arrived
         ∧ node_recipes arrived
           = dict_set recipe_name recipe_data (node_recipes dest_node)
         ∧ dict_get recipe_name (node_recipes arrived) = Some recipe_data)
    ∧ (∃ left,
         node_at (recipes self') (current_path self) = Ret left
         ∧ node_recipes left = dict_del recipe_name (node_recipes current)).
Proof.
  intros Hcur Hrecipe Hdest Hne.
  pose proof (find_destination_reaches _ _ _ _ _ Hcur Hdest) as Hreach.
  unfold move_recipe. rewrite Hcur, Hrecipe, Hdest.
  eexists (with_recipes self (update_at (current_path self) _ _)), _.
    split; [reflexivity|]. split; [done|].
  cbn [with_recipes recipes current_path].
  set (put := λ node : tree num,
         Node (node_folders node)
           (dict_set recipe_name recipe_data (node_recipes node))).
  set (del := λ node : tree num,
         Node (node_folders node) (dict_del recipe_name (node_recipes node))).
  pose proof (node_at_update_at (recipes self) full_path put dest_node Hreach)
    as Hput.
  split.
  - destruct (node_at_update_at_other del (λ _, eq_refl) (current_path self)
                full_path (update_at full_path put (recipes self))
                (put dest_node)) as (arrived & Harrived & Hsame);
      [done | done |].
    exists arrived. split; [done|]. rewrite Hsame. simpl.
    split; [done | apply dict_get_set_eq].
  - destruct (node_at_update_at_other put (λ _, eq_refl) full_path
                (current_path self) (recipes self) current)
      as (current1 & Hcurrent1 & Hsame); [done | done |].
    exists (del current1). split; [by apply node_at_update_at|].
    simpl. by rewrite Hsame.
Qed.

End Catalogue.

(** ** The catalogue on concrete data *)

Lemma navigation_stays_in_catalogue_witness :
  (∀ folder_name,
     ∃ entered self' printed,
       enter_folder kitchen folder_name = (Ret entered, self', printed)
       ∧ (entered = true
          ↔ is_Some (dict_get folder_name (node_folders (recipes kitchen))))
       ∧ recipes self' = recipes kitchen
       ∧ ∃ node, get_current_node self' = Ret node)
  ∧ recipes (go_up kitchen).1.2 = recipes kitchen
  ∧ ∃ node, get_current_node (go_up kitchen).1.2 = Ret node.
Proof.
  exact (navigation_stays_in_catalogue kitchen (recipes kitchen) eq_refl).
Defined.

Lemma go_up_undoes_enter_folder_witness :
  go_up (enter_folder kitchen "soups").1.2 = (true, kitchen, []).
Proof.
  exact (proj1 (go_up_undoes_enter_folder kitchen "soups") _ [] eq_refl).
Defined.

(** A new folder [desserts] can be entered, and comes after the folders
    that were there; [soups], which is there, keeps its recipe. *)
Lemma create_folder_adds_or_keeps_witness :
  (enter_folder (create_folder kitchen "desserts").1.1.2 "desserts").1.1
  = Ret true
  ∧ (∃ current',
       get_current_node (create_folder kitchen "desserts").1.1.2
       = Ret current'
       ∧ node_folders current'
         = node_folders (recipes kitchen) ++ [("desserts", Node [] [])])
  ∧ create_folder kitchen "soups"
    = (Ret tt, kitchen, ["Folder 'soups' already exists!"], None).
Proof.
  destruct (create_folder_adds_or_keeps kitchen (recipes kitchen) "desserts"
              eq_refl) as [Hnew _].
  destruct (create_folder_adds_or_keeps kitchen (recipes kitchen) "soups"
              eq_refl) as [_ Hold].
  destruct (Hnew eq_refl)
    as (self' & printed & Hcreate & _ & _ & Henter
        & current' & Hcurrent & _ & Hfolders & _).
  split; [|split].
  - rewrite Hcreate. exact Henter.
  - exists current'. rewrite Hcreate. split; [exact Hcurrent | exact Hfolders].
  - exact (Hold _ eq_refl).
Defined.

(** [soups] holds a recipe and stays whatever the answer; the empty
    folder [old] goes on the answer ["Y"]. *)
Lemma delete_folder_only_empty_and_confirmed_witness :
  (delete_folder lower_ascii kitchen "soups" "y").1.1.2 = kitchen
  ∧ (enter_folder (delete_folder lower_ascii kitchen "old" "Y").1.1.2
       "old").1.1
    = Ret false.
Proof.
  split.
  - refine (proj1 (proj1 (delete_folder_only_empty_and_confirmed lower_ascii
                            kitchen (recipes kitchen) "soups" _ "y"
                            eq_refl eq_refl) _)).
    right. left. discriminate.
  - destruct (proj2 (delete_folder_only_empty_and_confirmed lower_ascii
                       kitchen (recipes kitchen) "old" _ "Y" eq_refl eq_refl)
                eq_refl eq_refl eq_refl)
      as (self' & printed & Hdelete & _ & Henter & _).
    + unfold dict_keys. simpl. repeat constructor; set_solver.
    + rewrite Hdelete. exact Henter.
Defined.

(** At the root, moving [stew] to [/] leaves the root without it; the
    [stew] under [soups] is another recipe. *)
Lemma move_recipe_to_own_folder_deletes_witness :
  (move_recipe kitchen "stew" "/").1.1.2
  = with_recipes kitchen (Node (node_folders (recipes kitchen)) [])
  ∧ (move_recipe kitchen "stew" "/").2
    = Some (Node (node_folders (recipes kitchen)) []).
Proof.
  destruct (move_recipe_to_own_folder_deletes kitchen (recipes kitchen)
              "stew" stew "/" (recipes kitchen) eq_refl eq_refl eq_refl)
    as (root & printed & Hmove & Hroot & _).
  rewrite Hmove. subst root. split; reflexivity.
Defined.

(** Moving [stew] from the root into [soups] puts it in place of the
    [stew] that was there. *)
Lemma move_recipe_to_other_folder_witness :
  ∃ self' printed,
    move_recipe kitchen "stew" "soups"
    = (Ret tt, self', printed, Some (recipes self'))
    ∧ current_path self' = current_path kitchen
    ∧ (∃ arrived,
         node_at (recipes self') ["soups"] = Ret arrived
         ∧ node_recipes arrived
           = dict_set "stew" stew
               [("stew", {| recipe_ingredients := None;
                            recipe_instructions := "Boil.";
                            recipe_notes := None |})]
         ∧ dict_get "stew" (node_recipes arrived) = Some stew)
    ∧ (∃ left,
         node_at (recipes self') (current_path kitchen) = Ret left
         ∧ node_recipes left = dict_del "stew" (node_recipes (recipes kitchen))).
Proof.
  refine (move_recipe_to_other_folder kitchen (recipes kitchen) "stew" stew
            "soups" _ ["soups"] eq_refl eq_refl eq_refl _).
  discriminate.
Defined.

(** ** The depth of the recursion *)

Lemma unit_name_inj (i j : nat) : unit_name i = unit_name j → i = j.
Proof. unfold unit_name. simpl. intros [= Heq]. by apply (inj pretty). Qed.

Section RecursionDepth.
Context {num : Type} `{PyNumber num}.
Implicit Types (factors : table num) (st : class_state num).
Implicit Types (fs : filesystem num) (value : num).

(** With room for the search's whole depth, the limit changes nothing. *)
Lemma convert_with_limit_enough limit factors value a b :
  search_fuel factors ≤ limit →
  convert_with_limit limit factors value a b
  = within_limit (convert_with factors value a b).
Proof.
  intros Hle. unfold convert_with_limit, convert_with.
  case_decide; [done|].
  destruct (factor_of factors a b); [done|].
  destruct (factor_of factors b a); [by destruct (py_truediv _ _)|].
  destruct (top_search_returns factors b a) as (r & V' & Hr).
  rewrite Hr.
  rewrite (find_conversion_path_fuel_mono _ _ _ _ _ _ _ Hle Hr).
  by destruct (truthy r).
Qed.

Lemma convert_limited_loaded limit fs value a b conversion_file st factors st' :
  _get_conversion_factors fs conversion_file st = (Ret factors, st') →
  convert_limited limit fs value a b conversion_file st
  = (convert_with_limit limit factors value a b, st').
Proof. intros Hload. unfold convert_limited. by rewrite Hload. Qed.

Lemma dict_get_generated (row : nat → dict num) (l : list nat) (i : nat) :
  i ∈ l →
  dict_get (unit_name i) ((λ j, (unit_name j, row j)) <$> l) = Some (row i).
Proof.
  induction l as [|j l IH]; intros Hin; [inversion Hin|].
  rewrite fmap_cons. simpl. case_decide as Hname.
  - by apply unit_name_inj in Hname as ->.
  - apply IH. apply elem_of_cons in Hin as [->|?]; done.
Qed.

Lemma dict_get_ring n (f : num) i :
  i < n → dict_get (unit_name i) (ring n f) = Some [(unit_name (S i mod n), f)].
Proof.
  intros Hi. unfold ring.
  apply (dict_get_generated (λ j, [(unit_name (S j mod n), f)])).
  apply elem_of_seq. lia.
Qed.

Lemma ring_entry n (f : num) unit row :
  dict_get unit (ring n f) = Some row →
  ∃ i, row = [(unit_name (S i mod n), f)].
Proof.
  unfold ring. induction (seq 0 n) as [|j l IH]; [done|].
  rewrite fmap_cons. simpl. case_decide; [|done].
  intros [= <-]. eauto.
Qed.

(** Nothing in a ring leads to a unit that is not one of its own. *)
Lemma ring_no_edge_to n (f : num) unit target :
  (∀ i, target ≠ unit_name i) → ¬ edge (ring n f) unit target.
Proof.
  intros Hfresh [g Hg]. unfold factor_of in Hg.
  destruct (dict_get unit (ring n f)) as [row|] eqn:Hrow; [|done].
  apply ring_entry in Hrow as [i ->]. simpl in Hg.
  case_decide; [|done]. by eapply Hfresh.
Qed.

Lemma forward_path_last_edge factors a b :
  forward_path factors a b → ∃ y, edge factors y b.
Proof. unfold forward_path. induction 1; eauto. Qed.

(** On a ring, the search for a unit outside it goes one call deeper
    with each unit: on less fuel than the ring has units left, it runs
    out. *)
Lemma ring_search_too_deep n (f : num) target :
  (∀ i, target ≠ unit_name i) →
  ∀ fuel k V,
    k + fuel < n →
    (∀ j, k < j → unit_name j ∉ V) →
    find_conversion_path (ring n f) fuel target (unit_name k) V = OutOfFuel.
Proof.
  intros Hfresh fuel.
  induction fuel as [|fuel IH]; intros k V Hk Hlater; [done|].
  assert (S k mod n = S k) as Hnext by (apply Nat.mod_small; lia).
  cbn [find_conversion_path]. unfold factor_of, neighbours.
  rewrite dict_get_ring by lia. rewrite Hnext. simpl.
  rewrite decide_False by apply Hfresh.
  rewrite decide_False.
  - rewrite IH; [done | lia |].
    intros j Hj Hin. apply elem_of_union in Hin as [Hin|Hin].
    + apply elem_of_singleton, unit_name_inj in Hin. lia.
    + apply (Hlater j); [lia | done].
  - intros Hin. apply elem_of_union in Hin as [Hin|Hin].
    + apply elem_of_singleton, unit_name_inj in Hin. lia.
    + apply (Hlater (S k)); [lia | done].
Qed.

Lemma ring_exceeds_limit limit n (f : num) value target :
  (∀ i, target ≠ unit_name i) →
  limit < n →
  convert_with_limit limit (ring n f) value (unit_name 0) target
  = RecursionError.
Proof.
  intros Hfresh Hlt. unfold convert_with_limit.
  rewrite decide_False by (intros Heq; by apply (Hfresh 0)).
  assert (factor_of (ring n f) (unit_name 0) target = None) as ->.
  { apply no_forward_path_no_entry. intros Hpath.
    apply forward_path_last_edge in Hpath as [y Hy].
    by apply ring_no_edge_to in Hy. }
  assert (factor_of (ring n f) target (unit_name 0) = None) as ->.
  { unfold factor_of. destruct (dict_get target (ring n f)) as [row|] eqn:Hrow;
      [|done].
    exfalso. unfold ring in Hrow.
    induction (seq 0 n) as [|j l IH]; [done|].
    rewrite fmap_cons in Hrow. simpl in Hrow.
    case_decide; [by eapply Hfresh | by apply IH]. }
  rewrite ring_search_too_deep; [done | done | lia | set_solver].
Qed.

Lemma ring_exceeds_limit_loaded limit n (f : num) value target
    fs conversion_file st st' :
  _get_conversion_factors fs conversion_file st = (Ret (ring n f), st') →
  (∀ i, target ≠ unit_name i) →
  limit < n →
  convert_limited limit fs value (unit_name 0) target conversion_file st
  = (RecursionError, st').
Proof.
  intros Hload Hfresh Hlt.
  rewrite (convert_limited_loaded _ _ _ _ _ _ _ _ _ Hload).
  by rewrite ring_exceeds_limit.
Qed.

(** C6, as amended. The search keeps a visited set, so that no unit is
    expanded twice and its recursion is at most as deep as the table has
    keys, plus one. On an interpreter that allows that many nested calls,
    [convert] terminates on every table, cyclic or not, with the result
    that no limit would change, and with the no-path error for a unit
    that cannot be reached. *)
Theorem convert_terminates_within_limit limit fs conversion_file st
    factors st' value from_unit to_unit :
  _get_conversion_factors fs conversion_file st = (Ret factors, st') →
  S (length factors) ≤ limit →
  convert_limited limit fs value from_unit to_unit conversion_file st
  = (within_limit (convert fs value from_unit to_unit conversion_file st).1,
     st')
  ∧ (convert_limited limit fs value from_unit to_unit conversion_file st).1
    ≠ RecursionError
  ∧ NoDup (expanded_units factors limit to_unit from_unit ∅)
  ∧ (from_unit ≠ to_unit →
     factor_of factors to_unit from_unit = None →
     ¬ forward_path factors from_unit to_unit →
     convert_limited limit fs value from_unit to_unit conversion_file st
     = (Raises (ValueError (no_path_message from_unit to_unit)), st')).
Proof.
  intros Hload Hle.
  rewrite (convert_limited_loaded _ _ _ _ _ _ _ _ _ Hload).
  rewrite (convert_loaded _ _ _ _ _ _ _ _ Hload).
  rewrite convert_with_limit_enough by done. simpl.
  split; [done|]. split; [|split].
  - pose proof (convert_with_terminates factors value from_unit to_unit).
    by destruct (convert_with factors value from_unit to_unit).
  - apply (expanded_units_fresh factors to_unit limit from_unit ∅). set_solver.
  - intros Hne Hrev Hno. by rewrite convert_with_no_path.
Qed.

End RecursionDepth.

(** The first load from the one file there is returns its table. *)
Lemma one_file_loads (factors : table float) :
  _get_conversion_factors (one_file "conversions.json" factors) None
    (initial_state "conversions.json")
  = (Ret factors, loaded_state factors).
Proof. reflexivity. Qed.

(** On the two-unit cycle [a → b → a] a limit of a thousand calls is
    ample, and the search for [c] ends with the no-path error. *)
Lemma convert_terminates_within_limit_witness :
  convert_limited 1000 (one_file "conversions.json" both_ways_table)
    1%float "a" "c" None (initial_state "conversions.json")
  = (Raises (ValueError "No conversion path found from 'a' to 'c'"),
     loaded_state both_ways_table).
Proof.
  refine (proj2 (proj2 (proj2 (convert_terminates_within_limit 1000
            (one_file "conversions.json" both_ways_table) None
            (initial_state "conversions.json") both_ways_table
            (loaded_state both_ways_table) 1%float "a" "c" eq_refl _)))
            _ eq_refl _).
  - simpl. lia.
  - discriminate.
  - by eapply (top_search_fails _ _ _ None).
Defined.

(** C6 as stated fails: on a ring of 1500 units, a finite cyclic table,
    the search for a unit that cannot be reached goes 1500 calls deep;
    where the interpreter allows a thousand, [convert] ends in
    [RecursionError], not in the no-path error. *)
Lemma recursion_limit_counterexample :
  ¬ forward_path (ring 1500 1%float) (unit_name 0) "x"
  ∧ convert_limited 1000 (one_file "conversions.json" (ring 1500 1%float))
      1%float (unit_name 0) "x" None (initial_state "conversions.json")
    = (RecursionError, loaded_state (ring 1500 1%float)).
Proof.
  assert (∀ i, "x" ≠ unit_name i) as Hfresh by (intros i; discriminate).
  assert (1000 < 1500) as Hlt by lia.
  split.
  - intros Hpath. apply forward_path_last_edge in Hpath as [y Hy].
    by apply ring_no_edge_to in Hy.
  - exact (ring_exceeds_limit_loaded 1000 1500 1%float 1%float "x"
             (one_file "conversions.json" (ring 1500 1%float)) None
             (initial_state "conversions.json")
             (loaded_state (ring 1500 1%float))
             (one_file_loads (ring 1500 1%float)) Hfresh Hlt).
Qed.
